(** * The build watcher of copr-cli: [Commands._watch_builds] and the
      exception handlers of [main] (examples/copr/copr_cli/main.py).

    The watcher is embedded as a transition function on explicit control
    points, one per statement of the polling loop.  The remote service, the
    wall clock and the user's Ctrl-C are the environment [Env]. *)

From stdpp Require Import gmap strings list pretty sorting.
From Stdlib Require Import ZArith Lia Ascii.

Local Open Scope Z_scope.

(** ** Data *)

(** The object returned by [self.client.get_build_details(build_id)]: the
    three attributes the watcher reads. *)
Record build_details := BuildDetails {
  output : string;
  error : string;
  status : string;
}.

(** The exception classes named in [_watch_builds] and in the handlers of
    [main]. *)
Inductive exn_class :=
| KeyboardInterrupt
| CoprBuildException
| CoprUnknownResponseException
| CoprRequestException
| ArgumentTypeError
| CoprException.

(** An exception instance: its class and the message it was built with. *)
Record exn := Exn { exn_cls : exn_class; exn_msg : string }.

(** How a call ends: [return] (the watcher only ever returns [None]) or an
    exception leaving the function. *)
Inductive outcome :=
| Returned
| Raised (e : exn).

(** How the call [self.client.get_build_details(build_id)] of line 124 ends:
    it returns a report, or it raises (the client library raises when the
    request fails or the answer cannot be read). *)
Inductive reply :=
| Report (d : build_details)
| Failure (e : exn).

(** What the watcher does to the outside world, in order. *)
Inductive event :=
| Banner
    (* line 110: print("Watching build(s): (this may be safely interrupted)") *)
| Queried (build_id : Z) (d : build_details)
    (* line 124: a call of get_build_details that returned d *)
| Failed_query (build_id : Z) (e : exn)
    (* line 124: a call of get_build_details that raised e *)
| Notified (now : string) (st : string) (build_id : Z)
    (* lines 134-136: print("  {0} Build {2}: {1}") *)
| Slept (secs : Z)
    (* line 150: time.sleep(30) ran to its end *)
| Interrupted.
    (* a KeyboardInterrupt was raised in the watcher *)

(** The environment of one call of [_watch_builds].  A not-yet-done
    identifier is queried once in every polling round, so the client's
    replies are indexed by round and identifier.  [sigint t] tells whether
    Ctrl-C arrives while the statement executed at tick [t] runs;
    [strftime t] is the wall clock read at tick [t], formatted with
    "%H:%M:%S".  Python leaves the order in which [for build_id in watched]
    visits a set to the interpreter, where it may depend on how the set was
    built and not only on its members: [set_iter] is the order of this call,
    in which [watched] is built once and never changed.  Two calls are
    compared with two environments. *)
Record Env := MkEnv {
  get_build_details : nat -> Z -> reply;
  sigint : nat -> bool;
  strftime : nat -> string;
  set_iter : gset Z -> list Z;
}.

(** Iterating over a set visits its members and nothing else. *)
Definition iter_ok (E : Env) : Prop :=
  forall (X : gset Z) (x : Z), x ∈ set_iter E X <-> x ∈ X.

(** The locals of [_watch_builds], with two counters of the embedding
    ([round], [ticks]) and the events so far ([out]). *)
Record state := State {
  prevstatus : gmap Z (option string);
  failed_ids : list Z;
  watched : gset Z;
  done : gset Z;
  round : nat;
  ticks : nat;
  out : list event;
}.

(** Control points of [_watch_builds]. *)
Inductive pc :=
| PStart (build_ids : list Z)    (* lines 110-116, before the try *)
| PWhile                         (* line 119: while watched != done *)
| PFor (rest : list Z)           (* lines 120-122: next build_id, skip if done *)
| PQuery (build_id : Z) (rest : list Z)  (* lines 124-145 *)
| PAfterFor                      (* lines 147-148: if watched == done: break *)
| PSleep                         (* line 150 *)
| PSettle                        (* lines 152-155 *)
| PExit (o : outcome).           (* the call is over *)

Definition config : Type := pc * state.

(** ** Helpers of the embedding *)

(** [str(x)] for a Python int. *)
Definition str (x : Z) : string := pretty x.

(** [sep.join(l)]. *)
Fixpoint join (sep : string) (l : list string) : string :=
  match l with
  | [] => EmptyString
  | [x] => x
  | x :: l' => x +:+ sep +:+ join sep l'
  end.

(** [x in l] for a list of strings. *)
Definition str_in (x : string) (l : list string) : bool :=
  bool_decide (x ∈ l).

(** Reading [prevstatus[build_id]] on a [defaultdict(lambda: None)]: a
    missing key is first bound to [None]. *)
Definition dd_get (m : gmap Z (option string)) (k : Z)
  : option string * gmap Z (option string) :=
  match m !! k with
  | Some v => (v, m)
  | None => (None, <[k := None]> m)
  end.

(** Line 127: "  Build {1}: Unable to get build status: {0}".format(error, build_id) *)
Definition errmsg (err : string) (build_id : Z) : string :=
  "  Build " +:+ str build_id +:+ ": Unable to get build status: " +:+ err.

(** Lines 154-155: "Build(s) {0} failed.".format(", ".join(str(x) for x in failed_ids)) *)
Definition failed_msg (failed : list Z) : string :=
  "Build(s) " +:+ join ", " (map str failed) +:+ " failed.".

(** The [except KeyboardInterrupt: pass] of lines 157-158, applied to an
    exception raised inside the try block. *)
Definition except_KeyboardInterrupt (e : exn) : outcome :=
  match exn_cls e with
  | KeyboardInterrupt => Returned
  | _ => Raised e
  end.

(** Assignments to one local, the others unchanged. *)
Definition set_prevstatus (m : gmap Z (option string)) (s : state) : state :=
  State m (failed_ids s) (watched s) (done s) (round s) (ticks s) (out s).

Definition set_failed_ids (l : list Z) (s : state) : state :=
  State (prevstatus s) l (watched s) (done s) (round s) (ticks s) (out s).

Definition set_done (X : gset Z) (s : state) : state :=
  State (prevstatus s) (failed_ids s) (watched s) X (round s) (ticks s) (out s).

Definition next_round (s : state) : state :=
  State (prevstatus s) (failed_ids s) (watched s) (done s) (S (round s))
        (ticks s) (out s).

Definition tick (s : state) : state :=
  State (prevstatus s) (failed_ids s) (watched s) (done s) (round s)
        (S (ticks s)) (out s).

Definition emit (evs : list event) (s : state) : state :=
  State (prevstatus s) (failed_ids s) (watched s) (done s) (round s)
        (ticks s) (out s ++ evs).

(** [raise e] at a control point inside the try block. *)
Definition raise_in_try (e : exn) (s : state) : config :=
  (PExit (except_KeyboardInterrupt e), tick s).

(** ** The loop body, lines 124-145, with the answer of line 124 *)

(** Lines 131-136. *)
Definition report_change (now : string) (build_id : Z) (d : build_details)
    (s : state) : state :=
  let '(prev, m) := dd_get (prevstatus s) build_id in
  if bool_decide (prev ≠ Some (status d)) then
    emit [Notified now (status d) build_id]
         (set_prevstatus (<[build_id := Some (status d)]> m) s)
  else set_prevstatus m s.

(** Lines 138-139. *)
Definition record_failed (build_id : Z) (d : build_details) (s : state) : state :=
  if str_in (status d) ["failed"]
  then set_failed_ids (failed_ids s ++ [build_id]) s
  else s.

(** Lines 140-142. *)
Definition record_done (build_id : Z) (d : build_details) (s : state) : state :=
  if str_in (status d) ["succeeded"; "skipped"; "failed"; "canceled"]
  then set_done ({[build_id]} ∪ done s) s
  else s.

(** An exception raised by the call of line 124 is raised in the try block
    as it is: no clause but the one for [KeyboardInterrupt] is there. *)
Definition body (E : Env) (build_id : Z) (rest : list Z) (s : state) : config :=
  match get_build_details E (round s) build_id with
  | Failure e => raise_in_try e (emit [Failed_query build_id e] s)
  | Report d =>
      let s := emit [Queried build_id d] s in
      if bool_decide (output d ≠ "ok") then
        raise_in_try (Exn CoprRequestException (errmsg (error d) build_id)) s
      else
        let now := strftime E (ticks s) in
        let s := report_change now build_id d s in
        let s := record_failed build_id d s in
        let s := record_done build_id d s in
        if bool_decide (status d = "unknown") then
          raise_in_try (Exn CoprBuildException "Unknown status.") s
        else
          (PFor rest, tick s)
  end.

(** ** One statement of the try block, lines 119-155 *)
Definition stmt (E : Env) (p : pc) (s : state) : config :=
  match p with
  | PWhile =>
      if bool_decide (watched s ≠ done s)
      then (PFor (set_iter E (watched s)), tick s)
      else (PSettle, tick s)
  | PFor [] => (PAfterFor, tick s)
  | PFor (build_id :: rest) =>
      if bool_decide (build_id ∈ done s)
      then (PFor rest, tick s)
      else (PQuery build_id rest, tick s)
  | PQuery build_id rest => body E build_id rest s
  | PAfterFor =>
      if bool_decide (watched s = done s)
      then (PSettle, tick s)
      else (PSleep, tick s)
  | PSleep => (PWhile, tick (next_round (emit [Slept 30] s)))
  | PSettle =>
      match failed_ids s with
      | [] => (PExit Returned, tick s)
      | _ :: _ =>
          raise_in_try (Exn CoprBuildException (failed_msg (failed_ids s))) s
      end
  | PStart _ | PExit _ => (p, s)
  end.

(** ** One step of the call: a statement, or the Ctrl-C that replaces it *)
Definition step (E : Env) (c : config) : config :=
  let '(p, s) := c in
  match p with
  | PExit _ => c
  | PStart build_ids =>
      (* lines 110-116 are outside the try block *)
      if sigint E (ticks s) then
        (PExit (Raised (Exn KeyboardInterrupt EmptyString)), tick (emit [Interrupted] s))
      else
        (PWhile,
         tick (State ∅ [] (list_to_set build_ids) ∅ (round s) (ticks s)
                     (out s ++ [Banner])))
  | _ =>
      if sigint E (ticks s) then
        raise_in_try (Exn KeyboardInterrupt EmptyString) (emit [Interrupted] s)
      else stmt E p s
  end.

Definition start (build_ids : list Z) : config :=
  (PStart build_ids, State ∅ [] ∅ ∅ 0 0 []).

Definition run (E : Env) (n : nat) (c : config) : config :=
  Nat.iter n (step E) c.

(** The call [_watch_builds(build_ids)] after [n] steps. *)
Definition _watch_builds (E : Env) (build_ids : list Z) (n : nat) : config :=
  run E n (start build_ids).

(** The outcome, once the call is over. *)
Definition result (c : config) : option outcome :=
  match fst c with
  | PExit o => Some o
  | _ => None
  end.

(** The control points inside the try block. *)
Definition in_try (p : pc) : bool :=
  match p with
  | PStart _ | PExit _ => false
  | _ => true
  end.

Global Arguments run : simpl never.
Global Arguments step : simpl never.

(** ** The handlers of [main], lines 1050-1068 *)

Definition nl : string := String (Ascii.ascii_of_nat 10) EmptyString.

(** How the process ends. *)
Inductive process :=
| Exit (stderr : string) (code : Z)   (* sys.stderr.write(..); sys.exit(code) *)
| Unhandled (e : exn).

Section Main.
(** The classes of [copr.exceptions] are declared in the client library:
    [issubclass c c'] is its class hierarchy. *)
Variable issubclass : exn_class -> exn_class -> bool.

(** The except clauses in their order: class, text written to stderr (one
    string for the two writes of lines 1060-1061), exit status. *)
Definition handlers : list (exn_class * (string -> string) * Z) :=
  [ (KeyboardInterrupt, fun _ => nl +:+ "Interrupted by user.", 1);
    (CoprBuildException, fun e => nl +:+ "Build error: " +:+ e +:+ nl, 4);
    (CoprUnknownResponseException, fun e => nl +:+ "Error: " +:+ e +:+ nl, 5);
    (CoprRequestException,
      fun e => (nl +:+ "Something went wrong:") +:+ (nl +:+ "Error: " +:+ e +:+ nl), 1);
    (ArgumentTypeError, fun e => nl +:+ "Error: " +:+ e, 2);
    (CoprException, fun e => nl +:+ "Error: " +:+ e +:+ nl, 3) ].

(** The first clause whose class the exception is an instance of. *)
Fixpoint dispatch (hs : list (exn_class * (string -> string) * Z)) (e : exn)
  : process :=
  match hs with
  | [] => Unhandled e
  | (c, text, code) :: hs' =>
      if issubclass (exn_cls e) c then Exit (text (exn_msg e)) code
      else dispatch hs' e
  end.

Definition main_except (e : exn) : process := dispatch handlers e.
End Main.

(** The exit status of the process, when [main] reached a [sys.exit]. *)
Definition exit_status (p : process) : option Z :=
  match p with
  | Exit _ code => Some code
  | Unhandled _ => None
  end.

(** The text written to stderr. *)
Definition stderr_text (p : process) : string :=
  match p with
  | Exit text _ => text
  | Unhandled _ => EmptyString
  end.

(** ** Reading a state and a trace *)

(** The state after lines 131-142 ran on the answer [d] for [id]. *)
Definition handled (E : Env) (id : Z) (d : build_details) (s : state) : state :=
  let s := emit [Queried id d] s in
  record_done id d
    (record_failed id d (report_change (strftime E (ticks s)) id d s)).

(** The status recorded for [id] in the ledger, [None] included. *)
Definition ledger (s : state) (id : Z) : option string :=
  mjoin (prevstatus s !! id).

(** The statuses after which a build is done (line 140). *)
Definition terminal (st : string) : bool :=
  str_in st ["succeeded"; "skipped"; "failed"; "canceled"].

(** The identifiers queried, in order, whether the call returned or raised. *)
Fixpoint queries (tr : list event) : list Z :=
  match tr with
  | [] => []
  | Queried id _ :: tr' => id :: queries tr'
  | Failed_query id _ :: tr' => id :: queries tr'
  | _ :: tr' => queries tr'
  end.

(** The statuses the service reported for [id] in answers marked ok. *)
Fixpoint observed (id : Z) (tr : list event) : list string :=
  match tr with
  | [] => []
  | Queried id' d :: tr' =>
      if bool_decide (id' = id ∧ output d = "ok")
      then status d :: observed id tr' else observed id tr'
  | _ :: tr' => observed id tr'
  end.

(** The statuses notified for [id]. *)
Fixpoint notified (id : Z) (tr : list event) : list string :=
  match tr with
  | [] => []
  | Notified _ st id' :: tr' =>
      if bool_decide (id' = id) then st :: notified id tr' else notified id tr'
  | _ :: tr' => notified id tr'
  end.

(** The identifiers reported [failed] in an ok answer, in order. *)
Fixpoint failed_of (tr : list event) : list Z :=
  match tr with
  | [] => []
  | Queried id d :: tr' =>
      if bool_decide (output d = "ok" ∧ status d = "failed")
      then id :: failed_of tr' else failed_of tr'
  | _ :: tr' => failed_of tr'
  end.

(** The number of completed sleeps. *)
Fixpoint sleeps (tr : list event) : nat :=
  match tr with
  | [] => 0%nat
  | Slept _ :: tr' => S (sleeps tr')
  | _ :: tr' => sleeps tr'
  end.

(** A list with every run of equal neighbours shrunk to one element. *)
Fixpoint compress (l : list string) : list string :=
  match l with
  | [] => []
  | x :: l' =>
      match l' with
      | y :: _ => if bool_decide (x = y) then compress l' else x :: compress l'
      | [] => [x]
      end
  end.

(** [mentions x s]: the text [x] occurs in [s]. *)
Fixpoint mentions (x s : string) : bool :=
  String.prefix x s ||
  match s with
  | EmptyString => false
  | String _ s' => mentions x s'
  end.

(** ** The steps, case by case *)

(** [step_view E c c']: the case of [step] that takes [c] to [c'], with the
    tests that select it. *)

Inductive step_view (E : Env) : config -> config -> Prop :=
| sv_exit o s :
    step_view E (PExit o, s) (PExit o, s)
| sv_start_sigint l s :
    sigint E (ticks s) = true ->
    step_view E (PStart l, s)
      (PExit (Raised (Exn KeyboardInterrupt EmptyString)), tick (emit [Interrupted] s))
| sv_start l s :
    sigint E (ticks s) = false ->
    step_view E (PStart l, s)
      (PWhile, tick (State ∅ [] (list_to_set l) ∅ (round s) (ticks s)
                           (out s ++ [Banner])))
| sv_sigint p s :
    in_try p = true -> sigint E (ticks s) = true ->
    step_view E (p, s) (PExit Returned, tick (emit [Interrupted] s))
| sv_while_enter s :
    sigint E (ticks s) = false -> watched s ≠ done s ->
    step_view E (PWhile, s) (PFor (set_iter E (watched s)), tick s)
| sv_while_leave s :
    sigint E (ticks s) = false -> watched s = done s ->
    step_view E (PWhile, s) (PSettle, tick s)
| sv_for_end s :
    sigint E (ticks s) = false ->
    step_view E (PFor [], s) (PAfterFor, tick s)
| sv_for_continue id rest s :
    sigint E (ticks s) = false -> id ∈ done s ->
    step_view E (PFor (id :: rest), s) (PFor rest, tick s)
| sv_for_query id rest s :
    sigint E (ticks s) = false -> id ∉ done s ->
    step_view E (PFor (id :: rest), s) (PQuery id rest, tick s)
| sv_query_not_ok id rest s d :
    sigint E (ticks s) = false ->
    get_build_details E (round s) id = Report d -> output d ≠ "ok" ->
    step_view E (PQuery id rest, s)
      (PExit (Raised (Exn CoprRequestException (errmsg (error d) id))),
       tick (emit [Queried id d] s))
| sv_query_unknown id rest s d :
    sigint E (ticks s) = false ->
    get_build_details E (round s) id = Report d ->
    output d = "ok" -> status d = "unknown" ->
    step_view E (PQuery id rest, s)
      (PExit (Raised (Exn CoprBuildException "Unknown status.")),
       tick (handled E id d s))
| sv_query_next id rest s d :
    sigint E (ticks s) = false ->
    get_build_details E (round s) id = Report d ->
    output d = "ok" -> status d ≠ "unknown" ->
    step_view E (PQuery id rest, s) (PFor rest, tick (handled E id d s))
| sv_break s :
    sigint E (ticks s) = false -> watched s = done s ->
    step_view E (PAfterFor, s) (PSettle, tick s)
| sv_sleep s :
    sigint E (ticks s) = false -> watched s ≠ done s ->
    step_view E (PAfterFor, s) (PSleep, tick s)
| sv_slept s :
    sigint E (ticks s) = false ->
    step_view E (PSleep, s) (PWhile, tick (next_round (emit [Slept 30] s)))
| sv_settle_ok s :
    sigint E (ticks s) = false -> failed_ids s = [] ->
    step_view E (PSettle, s) (PExit Returned, tick s)
| sv_settle_failed s :
    sigint E (ticks s) = false -> failed_ids s ≠ [] ->
    step_view E (PSettle, s)
      (PExit (Raised (Exn CoprBuildException (failed_msg (failed_ids s)))),
       tick s)
| sv_query_raises id rest s e :
    sigint E (ticks s) = false ->
    get_build_details E (round s) id = Failure e ->
    step_view E (PQuery id rest, s)
      (PExit (except_KeyboardInterrupt e), tick (emit [Failed_query id e] s)).

(** The message of [e] names the build [id]. *)
Definition names (e : exn) (id : Z) : bool := mentions (str id) (exn_msg e).

(** ** Invariants of the call *)

(** The call is not over. *)
Definition live (p : pc) : Prop :=
  match p with
  | PExit _ => False
  | _ => True
  end.

(** Lines 110-116 have run. *)
Definition started (p : pc) : Prop :=
  match p with
  | PStart _ => False
  | _ => True
  end.

(** While the call is not over, the ledger holds no [unknown]. *)
Definition no_unknown (c : config) : Prop :=
  live (fst c) -> forall id, ledger (snd c) id ≠ Some "unknown".

(** An identifier about to be queried is not in the done set, and nothing is
    done before the call starts. *)
Definition query_fresh (c : config) : Prop :=
  match fst c with
  | PStart _ => done (snd c) = ∅
  | PQuery id _ => id ∉ done (snd c)
  | _ => True
  end.

(** The done set and the identifiers still to visit are in the watch set. *)
Definition done_watched (c : config) : Prop :=
  done (snd c) ⊆ watched (snd c) /\
  match fst c with
  | PFor rest => forall x, x ∈ rest -> x ∈ watched (snd c)
  | PQuery id rest =>
      id ∈ watched (snd c) /\ forall x, x ∈ rest -> x ∈ watched (snd c)
  | _ => True
  end.

(** The notifications for [id] are its observed statuses with repetitions
    shrunk, and the ledger holds the last observed status. *)
Definition ledger_follows (id : Z) (c : config) : Prop :=
  notified id (out (snd c)) = compress (observed id (out (snd c))) /\
  ledger (snd c) id = last (observed id (out (snd c))).

(** A trace with no interruption, no query that raised, no answer that is
    not ok and no [unknown] status. *)
Definition clean_event (ev : event) : bool :=
  match ev with
  | Interrupted => false
  | Failed_query _ _ => false
  | Queried _ d =>
      bool_decide (output d = "ok") && negb (bool_decide (status d = "unknown"))
  | _ => true
  end.

Definition clean (tr : list event) : bool := forallb clean_event tr.

(** Lines 152-155 as a function of the failed list. *)
Definition settle_outcome (failed : list Z) : outcome :=
  match failed with
  | [] => Returned
  | _ :: _ => Raised (Exn CoprBuildException (failed_msg failed))
  end.

(** The failed list is the list of identifiers reported failed, without
    repetition and inside the done set; every done identifier was reported
    with a terminal status; the loop is left with the watch set done, and a
    call with a clean trace ends by lines 152-155. *)
Definition settling (ids : list Z) (c : config) : Prop :=
  let s := snd c in
  failed_ids s = failed_of (out s) /\
  NoDup (failed_ids s) /\
  (forall x, x ∈ failed_ids s -> x ∈ done s) /\
  (forall x, x ∈ done s ->
     exists d, Queried x d ∈ out s /\ output d = "ok" /\ terminal (status d) = true) /\
  match fst c with
  | PStart _ => True
  | PSettle => watched s = list_to_set ids /\ watched s = done s
  | PExit o =>
      clean (out s) = true ->
      watched s = list_to_set ids /\ watched s = done s /\
      o = settle_outcome (failed_ids s)
  | _ => watched s = list_to_set ids
  end.

(** [answers E r id P]: the query of [id] in round [r] returns a report
    marked ok whose status satisfies [P]. *)
Definition answers (E : Env) (r : nat) (id : Z) (P : string -> Prop) : Prop :=
  exists d,
    get_build_details E r id = Report d /\ output d = "ok" /\ P (status d).

(** [succeeds_at E id r]: the service reports [id] as succeeded in round [r],
    and in every earlier round gives an ok answer whose status is neither
    [failed] nor [unknown]. *)
Definition succeeds_at (E : Env) (id : Z) (r : nat) : Prop :=
  answers E r id (fun st => st = "succeeded") /\
  forall r', (r' < r)%nat ->
    answers E r' id (fun st => st ≠ "failed" /\ st ≠ "unknown").

(** In round [k] of a watch of builds that all succeed: nothing failed, and
    the builds that succeeded in an earlier round are done. *)
Definition round_inv (E : Env) (ids : list Z) (k : nat) (s : state) : Prop :=
  round s = k /\
  watched s = list_to_set ids /\
  failed_ids s = [] /\
  done s ⊆ watched s /\
  forall id r, id ∈ watched s -> succeeds_at E id r -> (r < k)%nat -> id ∈ done s.

(** [terminates_at E id r]: round [r] is the first in which the service
    reports [id] with a terminal status; the answers of the rounds before are
    ok, with a status that is neither terminal nor [unknown].  Nothing is
    asked of the rounds after [r], in which [id] is not queried. *)
Definition terminates_at (E : Env) (id : Z) (r : nat) : Prop :=
  answers E r id (fun st => terminal st = true) /\
  forall r', (r' < r)%nat ->
    answers E r' id (fun st => terminal st = false /\ st ≠ "unknown").

(** [fails_at E id r]: the terminal status of [id], reported first in round
    [r], is [failed]. *)
Definition fails_at (E : Env) (id : Z) (r : nat) : Prop :=
  terminates_at E id r /\ answers E r id (fun st => st = "failed").

(** In round [k] of a watch of builds that all reach a terminal status: the
    trace is clean, the builds whose terminal status came in an earlier round
    are done, and every terminal status in the trace is the one the service
    gave in the first terminal round of its build. *)
Definition poll_inv (E : Env) (ids : list Z) (k : nat) (s : state) : Prop :=
  round s = k /\
  watched s = list_to_set ids /\
  done s ⊆ watched s /\
  clean (out s) = true /\
  (forall id r, id ∈ watched s -> terminates_at E id r -> (r < k)%nat ->
     id ∈ done s) /\
  (forall id d, Queried id d ∈ out s -> terminal (status d) = true ->
     exists r, terminates_at E id r /\ get_build_details E r id = Report d).

(** Two calls with the same service, clock and Ctrl-C; the order in which
    each visits its watch set is left free. *)
Definition same_service (E E' : Env) : Prop :=
  (forall r id, get_build_details E r id = get_build_details E' r id) /\
  (forall t, sigint E t = sigint E' t) /\
  (forall t, strftime E t = strftime E' t).

(** ** Environments used in the examples *)

(** A hierarchy in which every class is a subclass of itself and of
    [CoprException], the base class, except the two that are not of the
    client library. *)
Definition flat_issubclass (c c' : exn_class) : bool :=
  match c, c' with
  | KeyboardInterrupt, KeyboardInterrupt => true
  | ArgumentTypeError, ArgumentTypeError => true
  | KeyboardInterrupt, _ | ArgumentTypeError, _ => false
  | CoprBuildException, (CoprBuildException | CoprException) => true
  | CoprUnknownResponseException,
    (CoprUnknownResponseException | CoprException) => true
  | CoprRequestException, (CoprRequestException | CoprException) => true
  | CoprException, CoprException => true
  | _, _ => false
  end.

(** An answer marked ok with status [st]. *)
Definition ok (st : string) : build_details := BuildDetails "ok" EmptyString st.

(** Visiting a set in increasing order, as CPython does for a set of small
    non-negative integers without hash collisions. *)
Definition sorted_iter (X : gset Z) : list Z := merge_sort Z.le (elements X).

(** A service that always gives the same answer, with no Ctrl-C. *)
Definition env_const (d : build_details) : Env :=
  MkEnv (fun _ _ => Report d) (fun _ => false) (fun _ => "12:00:00")
        sorted_iter.

(** A service that answers ok with the status [f round id]; Ctrl-C arrives
    at the ticks where [ctrl_c] holds. *)
Definition env_statuses (f : nat -> Z -> string) (ctrl_c : nat -> bool) : Env :=
  MkEnv (fun r id => Report (ok (f r id))) ctrl_c (fun _ => "12:00:00")
        sorted_iter.

(** Build 101 is pending for two rounds and then succeeded. *)
Definition env_101 : Env :=
  env_statuses (fun r _ => if (r <? 2)%nat then "pending" else "succeeded")
               (fun _ => false).

(** Builds 201 and 202 are running for a round; then 201 succeeded and 202
    failed. *)
Definition env_201_202 : Env :=
  env_statuses
    (fun r id => if (r <? 1)%nat then "running"
                 else if (id =? 202)%Z then "failed" else "succeeded")
    (fun _ => false).

(** Build 1 has failed and build 2 is still running when Ctrl-C arrives at
    tick [t]. *)
Definition env_ctrl_c (t : nat) : Env :=
  env_statuses (fun _ id => if (id =? 1)%Z then "failed" else "running")
               (fun t' => (t' =? t)%nat).

(** A service whose every answer is an error report. *)
Definition env_not_ok : Env :=
  env_const (BuildDetails "notok" "Build 7 does not exist" EmptyString).

(** A client whose every call raises [e]. *)
Definition env_raises (e : exn) : Env :=
  MkEnv (fun _ _ => Failure e) (fun _ => false) (fun _ => "12:00:00")
        sorted_iter.

(** The request error of a client that got no answer from the server. *)
Definition no_answer : exn :=
  Exn CoprRequestException "Unable to connect to the server.".

(** Visiting a set in decreasing order.  CPython visits [set([8, 0])] as 8, 0
    and [set([0, 8, 0])] as 0, 8: both numbers fall into the first slot of the
    table and the one added first keeps it. *)
Definition reversed_iter (X : gset Z) : list Z := reverse (sorted_iter X).

(** Build 0 is not known to the service and the status of every other build
    is unknown; the watch set is visited in the order [iter]. *)
Definition env_0_8 (iter : gset Z -> list Z) : Env :=
  MkEnv (fun _ id => if (id =? 0)%Z
                     then Report (BuildDetails "notok" "No such build" EmptyString)
                     else Report (ok "unknown"))
        (fun _ => false) (fun _ => "12:00:00") iter.

(** * The rest of the command-line client *)

(** ** The regular expressions of [parse_name] and [parse_chroot_path] *)

(** A pattern, as the backtracking matcher of [re] runs it: the ways it
    matches a prefix of the subject, in the order in which they are tried,
    each with the value it captures and the rest of the subject. *)
Definition matcher (A : Type) : Type := string -> list (A * string).

(** [[^/]]: any character but the slash. *)
Definition not_slash (c : ascii) : bool := negb (Ascii.eqb c "/").

(** The line feed. *)
Definition newline : ascii := Ascii.ascii_of_nat 10.

(** [.]: any character but the newline. *)
Definition not_newline (c : ascii) : bool := negb (Ascii.eqb c newline).

(** [cls*], greedy: the longest run first, then the shorter ones. *)
Fixpoint re_star (cls : ascii -> bool) (s : string) : list (string * string) :=
  match s with
  | String c s' =>
      if cls c
      then map (fun mr => (String c (fst mr), snd mr)) (re_star cls s')
             ++ [(EmptyString, s)]
      else [(EmptyString, s)]
  | EmptyString => [(EmptyString, s)]
  end.

(** [cls+]: one character of the class, then [cls*]. *)
Definition re_plus (cls : ascii -> bool) : matcher string := fun s =>
  match s with
  | String c s' =>
      if cls c then map (fun mr => (String c (fst mr), snd mr)) (re_star cls s')
      else []
  | EmptyString => []
  end.

(** A literal character. *)
Definition re_lit (c : ascii) : matcher unit := fun s =>
  match s with
  | String c' s' => if Ascii.eqb c' c then [(tt, s')] else []
  | EmptyString => []
  end.

(** [p] followed by the pattern [f] builds from what [p] captured. *)
Definition re_seq {A B} (p : matcher A) (f : A -> matcher B) : matcher B :=
  fun s => flat_map (fun ar => f (fst ar) (snd ar)) (p s).

(** The empty pattern, capturing [a]. *)
Definition re_ret {A} (a : A) : matcher A := fun s => [(a, s)].

(** [(p)?], greedy: with [p] first, then without. *)
Definition re_opt {A} (p : matcher A) : matcher (option A) := fun s =>
  map (fun ar => (Some (fst ar), snd ar)) (p s) ++ [(None, s)].

(** [re.match(p, s)]: the first way [p] matches at the start of [s]. *)
Definition re_match {A} (p : matcher A) (s : string) : option A :=
  fst <$> head (p s).

(** The pattern [ ([^/]+) / (. * ) ] of line 1010, with its groups 1 and 2. *)
Definition re_name : matcher (string * string) :=
  re_seq (re_plus not_slash) (fun g1 =>
  re_seq (re_lit "/") (fun _ =>
  re_seq (re_star not_newline) (fun g2 =>
  re_ret (g1, g2)))).

(** Lines 1009-1016. *)
Definition parse_name (name : string) : option string * string :=
  match re_match re_name name with
  | Some (owner, name') => (Some owner, name')
  | None => (None, name)
  end.

(** The pattern [ (([^/]+)/)? ([^/]+) / (. * ) ] of line 1019, with its groups
    2, 3 and 4; group 2 is [None] when the optional group 1 takes no part in
    the match. *)
Definition re_chroot_path : matcher (option string * string * string) :=
  re_seq (re_opt (re_seq (re_plus not_slash) (fun g2 =>
                  re_seq (re_lit "/") (fun _ => re_ret g2)))) (fun g2 =>
  re_seq (re_plus not_slash) (fun g3 =>
  re_seq (re_lit "/") (fun _ =>
  re_seq (re_star not_newline) (fun g4 =>
  re_ret (g2, g3, g4))))).

(** Lines 1018-1022. *)
Definition parse_chroot_path (path : string)
  : option (option string * string * string) :=
  re_match re_chroot_path path.

(** [c] occurs in [s]. *)
Fixpoint occurs (c : ascii) (s : string) : bool :=
  match s with
  | String c' s' => Ascii.eqb c' c || occurs c s'
  | EmptyString => false
  end.

(** The longest prefix of [s] made of characters of [cls], and the rest. *)
Fixpoint span (cls : ascii -> bool) (s : string) : string * string :=
  match s with
  | String c s' =>
      if cls c then (String c (fst (span cls s')), snd (span cls s'))
      else (EmptyString, s)
  | EmptyString => (EmptyString, s)
  end.

(** [s] is empty or begins with a character outside [cls]. *)
Definition stops (cls : ascii -> bool) (s : string) : Prop :=
  match s with
  | String c _ => cls c = false
  | EmptyString => True
  end.

(** [s] begins with a character of [cls]. *)
Definition goes_on (cls : ascii -> bool) (s : string) : Prop :=
  match s with
  | String c _ => cls c = true
  | EmptyString => False
  end.

(** ** Actions *)

(** What leaves an action besides a return: an exception of the client
    library or a keyboard interrupt ([Exception]), the [TypeError] of the
    interpreter, or the [SystemExit] of [sys.exit]. *)
Inductive raised :=
| Exception (e : exn)
| TypeError
| SystemExit (code : Z).

Inductive ending :=
| Return
| Raise (r : raised).

(** The calls of the client library made by the actions embedded here, with
    the arguments computed by the action.  In the actions below these calls
    are functions that return an answer: an action is described for calls
    that return.  (When one raises, the exception leaves the action, where no
    try block stands around the call.) *)
Inductive request :=
| Get_chroot (ownername : option string) (projectname chrootname : string)
| Edit_chroot (ownername : option string) (projectname chrootname : string)
| Get_build_config (project chroot : string)
| Get_projects_list (username : option string)
| Authentication_check
| Build (username : option string) (projectname : string) (data : list string).

(** What an action does to the outside world, in order. *)
Inductive effect :=
| Stdout (line : string)            (* print(line) *)
| Stderr (text : string)            (* sys.stderr.write(text) *)
| Request (r : request)             (* a call of self.client *)
| Finish_bar                        (* bar.finish() *)
| Watching (ev : event)             (* an event of _watch_builds *)
| Subprocess (cmd : list string).   (* subprocess.call(cmd) *)

(** An action: its effects and how it ends; [None] while the watcher it
    called is still running. *)
Definition act : Type := list effect * option ending.

(** [self.client], as far as the guards read it. *)
Record client := Client {
  no_config : bool;
  username : option string;
}.

(** Lines 68-81: the decorator [requires_api_auth]. *)
Definition requires_api_auth {Args} (func : client -> Args -> act)
    (self : client) (args : Args) : act :=
  if no_config self then
    ([Stderr ("Error: Operation requires api authentication" +:+ nl)],
     Some (Raise (SystemExit 6)))
  else func self args.

(** [x is None]. *)
Definition is_None {A} (x : option A) : bool :=
  match x with
  | None => true
  | Some _ => false
  end.

(** Lines 83-104: the decorator [check_username_presence]; [args_username]
    reads [args.username]. *)
Definition check_username_presence {Args} (args_username : Args -> option string)
    (func : client -> Args -> act) (self : client) (args : Args) : act :=
  if no_config self && is_None (args_username args) then
    ([Stderr ("Error: Operation requires username" +:+ nl +:+
              "Pass username to command or create `~/.config/copr`" +:+ nl)],
     Some (Raise (SystemExit 6)))
  else if is_None (args_username args) && is_None (username self) then
    ([Stderr ("Error: Operation requires username" +:+ nl +:+
              "Pass username to command or add it to `~/.config/copr`" +:+ nl)],
     Some (Raise (SystemExit 6)))
  else func self args.

(** [a or b] for two values that are [None] or a text: [a] when it is a
    non-empty text, else [b]. *)
Definition py_or (a b : option string) : option string :=
  match a with
  | Some (String _ _) => a
  | _ => b
  end.

(** [str(x)] and ["{0}".format(x)] for [None] or a text. *)
Definition str_opt (x : option string) : string :=
  match x with
  | Some s => s
  | None => "None"
  end.

(** The answer of [get_projects_list]: the attributes [action_list] reads,
    the projects by their [str]. *)
Record projects_result := ProjectsResult {
  pr_output : string;
  pr_error : string;
  projects_list : list string;
}.

(** Lines 367-385, the body of [action_list]. *)
Definition action_list_body (get_projects_list : option string -> projects_result)
    (self : client) (args_username : option string) : act :=
  let username := py_or args_username (username self) in
  let result := get_projects_list username in
  let asked := [Request (Get_projects_list username)] in
  if bool_decide (pr_output result ≠ "ok") then
    (asked ++
     [Stderr (pr_error result +:+ nl);
      Stderr ("Un-expected data returned, please report this issue" +:+ nl)] ++
     map Stdout (projects_list result), Some Return)
  else
    match projects_list result with
    | [] =>
        (asked ++
         [Stderr ("No copr retrieved for user: '" +:+ str_opt username +:+ "'" +:+ nl)],
         Some Return)
    | _ :: _ => (asked ++ map Stdout (projects_list result), Some Return)
    end.

(** [action_list] with its decorator, line 366. *)
Definition action_list (get_projects_list : option string -> projects_result)
  : client -> option string -> act :=
  check_username_presence (fun u => u) (action_list_body get_projects_list).

(** Lines 440-450: [action_get_chroot]; [dumps] is the text printed for the
    answer.  Unpacking [None] into three names raises [TypeError]. *)
Definition action_get_chroot
    (dumps : option string -> string -> string -> string)
    (coprchroot : string) : act :=
  match parse_chroot_path coprchroot with
  | None => ([], Some (Raise TypeError))
  | Some (owner, copr, chroot) =>
      ([Request (Get_chroot owner copr chroot); Stdout (dumps owner copr chroot)],
       Some Return)
  end.

(** Lines 426-438: [action_edit_chroot]; [message] is [result.message]. *)
Definition action_edit_chroot
    (message : option string -> string -> string -> string)
  : client -> string -> act :=
  requires_api_auth (fun _ coprchroot =>
    match parse_chroot_path coprchroot with
    | None => ([], Some (Raise TypeError))
    | Some (owner, copr, chroot) =>
        ([Request (Edit_chroot owner copr chroot);
          Stdout (message owner copr chroot)], Some Return)
    end).

(** [s.split(sep)] for a separator of one character. *)
Fixpoint split (sep : ascii) (s : string) : list string :=
  match s with
  | EmptyString => [EmptyString]
  | String c s' =>
      if Ascii.eqb c sep then EmptyString :: split sep s'
      else match split sep s' with
           | x :: l => String c x :: l
           | [] => [String c EmptyString]
           end
  end.

(** [s.count(c)]. *)
Fixpoint count (c : ascii) (s : string) : nat :=
  match s with
  | EmptyString => 0%nat
  | String c' s' => (if Ascii.eqb c' c then 1 else 0)%nat + count c s'
  end.

(** The answer of [get_build_config]; [build_config] by the text that
    [MockProfile] prints for it. *)
Record config_result := ConfigResult {
  cr_output : string;
  cr_error : string;
  build_config : string;
}.

(** Lines 346-363: [action_mock_config].  [username + "/"] raises
    [TypeError] when the user name is [None]. *)
Definition action_mock_config (get_build_config : string -> string -> config_result)
    (self : client) (args_project args_chroot : string) : act :=
  let username := username self in
  let project := split "/" args_project in
  let renamed :=
    if bool_decide (length project ≠ 2%nat) then
      match username with
      | Some u => Some (u +:+ "/" +:+ args_project)
      | None => None
      end
    else Some args_project in
  match renamed with
  | None => ([], Some (Raise TypeError))
  | Some args_project =>
      let result := get_build_config args_project args_chroot in
      ([Request (Get_build_config args_project args_chroot)] ++
       (if bool_decide (cr_output result ≠ "ok") then
          [Stderr (cr_error result +:+ nl);
           Stderr ("Un-expected data returned, please report this issue" +:+ nl)]
        else []) ++
       [Stdout (build_config result)], Some Return)
  end.

(** The answer of a build function: the attributes [process_build] reads,
    [builds_list] by the [build_id] of its elements. *)
Record build_result := BuildResult {
  br_output : string;
  br_error : string;
  br_message : string;
  builds_list : list Z;
}.

(** The call [self._watch_builds(build_ids)] inside an action, after [n]
    steps of the watcher. *)
Definition watching (E : Env) (build_ids : list Z) (n : nat) : act :=
  let c := _watch_builds E build_ids n in
  (map Watching (out (snd c)),
   match result c with
   | Some Returned => Some Return
   | Some (Raised e) => Some (Raise (Exception e))
   | None => None
   end).

(** Lines 264-281: [process_build]; [data] stands for the keyword arguments
    of the build function, [bar] tells whether the test [if bar] of line 269
    succeeds: a progress bar was passed (a [ProgressBar] object is taken to
    be true). *)
Definition process_build (E : Env)
    (build_function : option string -> string -> list string -> build_result)
    (args_copr : string) (args_nowait : bool) (data : list string) (bar : bool)
    (n : nat) : act :=
  let '(username, copr) := parse_name args_copr in
  let result := build_function username copr data in
  let sent :=
    Request (Build username copr data) :: (if bar then [Finish_bar] else []) in
  if bool_decide (br_output result ≠ "ok") then
    (sent ++ [Stderr (br_error result +:+ nl)], Some Return)
  else
    let build_ids := builds_list result in
    let printed :=
      sent ++ [Stdout (br_message result);
               Stdout ("Created builds: " +:+ join " " (map str build_ids))] in
    if negb args_nowait then
      let '(evs, e) := watching E build_ids n in (printed ++ evs, e)
    else (printed, Some Return).

(** Lines 179-196: the loop of [action_build] over [args.pkgs]; [exists_] is
    [os.path.exists], [E i] the environment of the watch of the package at
    position [i], [bar] tells whether [bar] is not [None]. *)
Fixpoint action_build_loop (E : nat -> Env)
    (build_function : option string -> string -> list string -> build_result)
    (exists_ : string -> bool) (args_copr : string) (args_nowait : bool)
    (n : nat) (i : nat) (pkgs : list string) (bar : bool) : act :=
  match pkgs with
  | [] => ([], Some Return)
  | pkg :: pkgs' =>
      let bar := if exists_ pkg then true else bar in
      let uploading :=
        if exists_ pkg then [Stdout ("Uploading package " +:+ pkg)] else [] in
      match process_build (E i) build_function args_copr args_nowait [pkg] bar n with
      | (effs, Some Return) =>
          let '(effs', e) :=
            action_build_loop E build_function exists_ args_copr args_nowait
                              n (S i) pkgs' bar in
          (uploading ++ effs ++ effs', e)
      | (effs, e) => (uploading ++ effs, e)
      end
  end.

(** Lines 166-196: [action_build] with its decorator. *)
Definition action_build (E : nat -> Env)
    (build_function : option string -> string -> list string -> build_result)
    (exists_ : string -> bool) (args_copr : string) (args_nowait : bool)
    (n : nat) : client -> list string -> act :=
  requires_api_auth (fun _ pkgs =>
    let '(effs, e) :=
      action_build_loop E build_function exists_ args_copr args_nowait n 0 pkgs false in
    (Request Authentication_check :: effs, e)).

(** Lines 414-415: [action_watch_build]. *)
Definition action_watch_build (E : Env) (build_id : list Z) (n : nat) : act :=
  watching E build_id n.

(** How the process ends. *)
Inductive process_end :=
| Completed                               (* main returned *)
| Exited (stderr : string) (code : Z)     (* sys.exit(code), after main wrote stderr *)
| Traceback (r : raised).                 (* an exception no clause handles *)

(** Lines 1048-1068: [main] from the call of the action on.  No clause is
    for [SystemExit] or [TypeError], built-in classes that the classes of the
    clauses cannot be base classes of. *)
Definition main_action (issubclass : exn_class -> exn_class -> bool)
    (e : ending) : process_end :=
  match e with
  | Return => Completed
  | Raise (Exception x) =>
      match main_except issubclass x with
      | Exit text code => Exited text code
      | Unhandled _ => Traceback (Exception x)
      end
  | Raise (SystemExit code) => Exited EmptyString code
  | Raise TypeError => Traceback TypeError
  end.

(** The requests among the effects. *)
Fixpoint requests (effs : list effect) : list request :=
  match effs with
  | [] => []
  | Request r :: effs' => r :: requests effs'
  | _ :: effs' => requests effs'
  end.

(** The events of the watcher among the effects. *)
Fixpoint watched_events (effs : list effect) : list event :=
  match effs with
  | [] => []
  | Watching ev :: effs' => ev :: watched_events effs'
  | _ :: effs' => watched_events effs'
  end.

(** ** More on the watcher *)

(** In a watch of [ids] where [id0] never gets done, the loop is never left. *)
Definition never_done (ids : list Z) (id0 : Z) (c : config) : Prop :=
  match fst c with
  | PStart l => l = ids
  | PSettle | PExit _ => False
  | _ => watched (snd c) = list_to_set ids /\ id0 ∉ done (snd c)
  end.

(** The number of queries of [id] in a trace, whether the call returned or
    raised. *)
Fixpoint times_queried (id : Z) (tr : list event) : nat :=
  match tr with
  | [] => 0%nat
  | Queried id' _ :: tr' | Failed_query id' _ :: tr' =>
      ((if bool_decide (id' = id) then 1 else 0) + times_queried id tr')%nat
  | _ :: tr' => times_queried id tr'
  end.

(** Every sleep is of 30 seconds. *)
Definition sleeps_30 (tr : list event) : Prop :=
  forall secs, Slept secs ∈ tr -> secs = 30.

(** No identifier was queried more often than there were sleeps, but for the
    one query it may have had in the round under way; those still to visit in
    that round had none. *)
Definition polled_once (c : config) : Prop :=
  let tr := out (snd c) in
  sleeps_30 tr /\
  (forall id, (times_queried id tr <= S (sleeps tr))%nat) /\
  match fst c with
  | PStart _ => tr = []
  | PWhile => forall id, (times_queried id tr <= sleeps tr)%nat
  | PFor rest =>
      NoDup rest /\
      forall id, id ∈ rest -> (times_queried id tr <= sleeps tr)%nat
  | PQuery id0 rest =>
      NoDup (id0 :: rest) /\
      forall id, id ∈ id0 :: rest -> (times_queried id tr <= sleeps tr)%nat
  | _ => True
  end.

(** The last event is a sleep. *)
Definition just_slept (tr : list event) : Prop :=
  exists secs, last tr = Some (Slept secs).

(** After a sleep some build is still to be watched, until the next answer;
    the loop is not left right after a sleep. *)
Definition awake_at_end (c : config) : Prop :=
  match fst c with
  | PStart _ => out (snd c) = []
  | PSleep => watched (snd c) ≠ done (snd c)
  | PSettle | PExit _ => ~ just_slept (out (snd c))
  | _ => just_slept (out (snd c)) -> watched (snd c) ≠ done (snd c)
  end.

(** Every done identifier was last observed with a terminal status. *)
Definition done_reported (c : config) : Prop :=
  forall id, id ∈ done (snd c) ->
    exists st, last (observed id (out (snd c))) = Some st /\ terminal st = true.

(** ** More environments for the examples *)

(** A build function that accepts the request and creates builds 201 and
    202. *)
Definition build_accepted (_ : option string) (_ : string) (_ : list string)
  : build_result :=
  BuildResult "ok" EmptyString "Build was added to the project." [201; 202].

(** A build function that refuses the request. *)
Definition build_refused (_ : option string) (_ : string) (_ : list string)
  : build_result :=
  BuildResult "notok" "You do not have permission to build." EmptyString [].

(** The builds of the first package succeed, those of the others fail. *)
Definition env_by_package (i : nat) : Env :=
  match i with
  | O => env_const (ok "succeeded")
  | S _ => env_const (ok "failed")
  end.

(** A service that knows no project. *)
Definition no_projects (_ : option string) : projects_result :=
  ProjectsResult "ok" EmptyString [].

(** A service with one build configuration. *)
Definition one_config (_ _ : string) : config_result :=
  ConfigResult "ok" EmptyString "config_opts['root'] = 'fedora-rawhide-x86_64'".

(** * Properties *)

(** ** Running the call *)

Lemma run_S E n c : run E (S n) c = step E (run E n c).
Proof. reflexivity. Qed.

Lemma run_add E n m c : run E (n + m) c = run E m (run E n c).
Proof.
  unfold run. rewrite Nat.add_comm. apply Nat.iter_add.
Qed.

Lemma step_exit E o s : step E (PExit o, s) = (PExit o, s).
Proof. reflexivity. Qed.

Lemma run_exit E n o s : run E n (PExit o, s) = (PExit o, s).
Proof.
  induction n as [|n IH]; [reflexivity|].
  rewrite run_S, IH. reflexivity.
Qed.

(** A property kept by every step holds all along the call. *)
Lemma run_invariant (P : config -> Prop) E c :
  P c -> (forall c', P c' -> P (step E c')) -> forall n, P (run E n c).
Proof.
  intros H0 Hstep n. induction n as [|n IH]; [exact H0|].
  rewrite run_S. apply Hstep, IH.
Qed.

Lemma step_in_try E p s :
  in_try p = true ->
  step E (p, s) =
    if sigint E (ticks s)
    then raise_in_try (Exn KeyboardInterrupt EmptyString) (emit [Interrupted] s)
    else stmt E p s.
Proof. destruct p; unfold step; simpl; intros; done. Qed.

Lemma step_start E l s :
  sigint E (ticks s) = false ->
  step E (PStart l, s) =
    (PWhile, tick (State ∅ [] (list_to_set l) ∅ (round s) (ticks s)
                         (out s ++ [Banner]))).
Proof. intros H. unfold step. rewrite H. reflexivity. Qed.

Lemma step_sigint E p s :
  in_try p = true -> sigint E (ticks s) = true ->
  step E (p, s) = (PExit Returned, tick (emit [Interrupted] s)).
Proof. intros Hp Hs. rewrite step_in_try by done. by rewrite Hs. Qed.

Lemma step_stmt E p s :
  in_try p = true -> sigint E (ticks s) = false ->
  step E (p, s) = stmt E p s.
Proof. intros Hp Hs. rewrite step_in_try by done. by rewrite Hs. Qed.


(** ** The steps, case by case *)

Lemma step_view_step E c : step_view E c (step E c).
Proof.
  destruct c as [p s]. destruct p as [l| |rest|id rest| | | |o].
  - destruct (sigint E (ticks s)) eqn:Hs.
    + unfold step. rewrite Hs. by constructor.
    + rewrite step_start by done. by constructor.
  - destruct (sigint E (ticks s)) eqn:Hs.
    { rewrite step_sigint by done. by constructor. }
    rewrite step_stmt by done. cbn [stmt]. case_bool_decide; by constructor.
  - destruct (sigint E (ticks s)) eqn:Hs.
    { rewrite step_sigint by done. by constructor. }
    rewrite step_stmt by done. destruct rest as [|id rest]; cbn [stmt].
    + by constructor.
    + case_bool_decide; by constructor.
  - destruct (sigint E (ticks s)) eqn:Hs.
    { rewrite step_sigint by done. by constructor. }
    rewrite step_stmt by done. cbn [stmt]. unfold body.
    destruct (get_build_details E (round s) id) as [d|e] eqn:Hget.
    + case_bool_decide as Hok.
      * by constructor.
      * case_bool_decide; by constructor.
    + by constructor.
  - destruct (sigint E (ticks s)) eqn:Hs.
    { rewrite step_sigint by done. by constructor. }
    rewrite step_stmt by done. cbn [stmt]. case_bool_decide; by constructor.
  - destruct (sigint E (ticks s)) eqn:Hs.
    { rewrite step_sigint by done. by constructor. }
    rewrite step_stmt by done. cbn [stmt]. by constructor.
  - destruct (sigint E (ticks s)) eqn:Hs.
    { rewrite step_sigint by done. by constructor. }
    rewrite step_stmt by done. cbn [stmt].
    destruct (failed_ids s) as [|x l] eqn:Hf.
    + by apply sv_settle_ok.
    + rewrite <- Hf. apply sv_settle_failed; [done|by rewrite Hf].
  - rewrite step_exit. constructor.
Qed.

Lemma started_step E c : started (fst (step E c)).
Proof. by destruct (step_view_step E c). Qed.

(** The same, for a property that need not survive the first step from an
    arbitrary state. *)
Lemma run_invariant_started (P : config -> Prop) E ids :
  P (start ids) -> P (step E (start ids)) ->
  (forall c, started (fst c) -> P c -> P (step E c)) ->
  forall n, P (run E n (start ids)).
Proof.
  intros H0 H1 Hstep n.
  enough ((run E n (start ids) = start ids \/ started (fst (run E n (start ids))))
          /\ P (run E n (start ids))) as [_ ?]; [done|].
  induction n as [|n [[Heq|Hst] IH]]; [by split; [left|]| |]; rewrite run_S.
  - rewrite Heq. split; [right; apply started_step|done].
  - split; [right; apply started_step|by apply Hstep].
Qed.

(** ** What handling an answer changes *)

Lemma handled_watched E id d s : watched (handled E id d s) = watched s.
Proof.
  unfold handled, record_done, record_failed, report_change, dd_get.
  repeat (case_match || case_bool_decide); simplify_eq/=; done.
Qed.

Lemma handled_round E id d s : round (handled E id d s) = round s.
Proof.
  unfold handled, record_done, record_failed, report_change, dd_get.
  repeat (case_match || case_bool_decide); simplify_eq/=; done.
Qed.

Lemma handled_ticks E id d s : ticks (handled E id d s) = ticks s.
Proof.
  unfold handled, record_done, record_failed, report_change, dd_get.
  repeat (case_match || case_bool_decide); simplify_eq/=; done.
Qed.

Lemma record_failed_done id d s : done (record_failed id d s) = done s.
Proof. unfold record_failed. by case_match. Qed.

Lemma report_change_done now id d s : done (report_change now id d s) = done s.
Proof.
  unfold report_change, dd_get.
  repeat (case_match || case_bool_decide); simplify_eq/=; done.
Qed.

Lemma handled_done E id d s :
  done (handled E id d s) =
    if terminal (status d) then {[id]} ∪ done s else done s.
Proof.
  unfold handled, record_done, terminal.
  destruct (str_in (status d) _); cbn [done set_done];
    by rewrite record_failed_done, report_change_done.
Qed.

Lemma record_done_failed_ids id d s :
  failed_ids (record_done id d s) = failed_ids s.
Proof. unfold record_done. by case_match. Qed.

Lemma report_change_failed_ids now id d s :
  failed_ids (report_change now id d s) = failed_ids s.
Proof.
  unfold report_change, dd_get.
  repeat (case_match || case_bool_decide); simplify_eq/=; done.
Qed.

Lemma handled_failed_ids E id d s :
  failed_ids (handled E id d s) =
    if bool_decide (status d = "failed")
    then failed_ids s ++ [id] else failed_ids s.
Proof.
  unfold handled. rewrite record_done_failed_ids. unfold record_failed, str_in.
  case_bool_decide as H1; case_bool_decide as H2;
    cbn [failed_ids set_failed_ids]; rewrite ?report_change_failed_ids; try done.
  - apply list_elem_of_singleton in H1. done.
  - exfalso. apply H1. rewrite H2. apply list_elem_of_singleton. done.
Qed.

Lemma record_done_out id d s : out (record_done id d s) = out s.
Proof. unfold record_done. by case_match. Qed.

Lemma record_failed_out id d s : out (record_failed id d s) = out s.
Proof. unfold record_failed. by case_match. Qed.

Lemma dd_get_fst m k : (dd_get m k).1 = mjoin (m !! k).
Proof. unfold dd_get. by destruct (m !! k). Qed.

Lemma dd_get_insert m k v : <[k := v]> (dd_get m k).2 = <[k := v]> m.
Proof.
  unfold dd_get. destruct (m !! k); [done|]. cbn [snd].
  apply insert_insert_eq.
Qed.

Lemma dd_get_lookup m k k' : mjoin ((dd_get m k).2 !! k') = mjoin (m !! k').
Proof.
  unfold dd_get. destruct (m !! k) eqn:Hk; [done|]. cbn [snd].
  destruct (decide (k = k')) as [->|Hne].
  - by rewrite lookup_insert_eq, Hk.
  - by rewrite lookup_insert_ne.
Qed.

Lemma report_change_out now id d s :
  out (report_change now id d s) =
    out s ++ (if bool_decide (ledger s id ≠ Some (status d))
              then [Notified now (status d) id] else []).
Proof.
  unfold report_change, ledger. rewrite <- dd_get_fst.
  destruct (dd_get (prevstatus s) id) as [prev m]. cbn [fst].
  case_bool_decide; cbn [out emit set_prevstatus]; [done|].
  by rewrite app_nil_r.
Qed.

Lemma handled_out E id d s :
  out (handled E id d s) =
    out s ++ Queried id d ::
      (if bool_decide (ledger s id ≠ Some (status d))
       then [Notified (strftime E (ticks s)) (status d) id] else []).
Proof.
  unfold handled. rewrite record_done_out, record_failed_out, report_change_out.
  cbn [out emit ticks]. rewrite <- app_assoc. done.
Qed.

Lemma record_done_prevstatus id d s :
  prevstatus (record_done id d s) = prevstatus s.
Proof. unfold record_done. by case_match. Qed.

Lemma record_failed_prevstatus id d s :
  prevstatus (record_failed id d s) = prevstatus s.
Proof. unfold record_failed. by case_match. Qed.

Lemma report_change_ledger now id d s id' :
  ledger (report_change now id d s) id' =
    if bool_decide (id' = id) then Some (status d) else ledger s id'.
Proof.
  unfold report_change, ledger.
  pose proof (dd_get_fst (prevstatus s) id) as Hfst.
  pose proof (dd_get_insert (prevstatus s) id (Some (status d))) as Hins.
  pose proof (dd_get_lookup (prevstatus s) id id') as Hlk.
  destruct (dd_get (prevstatus s) id) as [prev m]. cbn [fst snd] in *.
  case_bool_decide as Hch; cbn [prevstatus emit set_prevstatus].
  - rewrite Hins. case_bool_decide as Hid.
    + subst. by rewrite lookup_insert_eq.
    + by rewrite lookup_insert_ne.
  - rewrite Hlk. case_bool_decide as Hid; [|done].
    subst. congruence.
Qed.

Lemma handled_ledger E id d s id' :
  ledger (handled E id d s) id' =
    if bool_decide (id' = id) then Some (status d) else ledger s id'.
Proof.
  unfold handled, ledger.
  rewrite record_done_prevstatus, record_failed_prevstatus.
  apply report_change_ledger.
Qed.

Lemma handled_prevstatus E id d s :
  ledger s id ≠ Some (status d) ->
  prevstatus (handled E id d s) = <[id := Some (status d)]> (prevstatus s).
Proof.
  intros Hch. unfold handled.
  rewrite record_done_prevstatus, record_failed_prevstatus.
  unfold report_change, ledger in *. rewrite <- dd_get_fst in Hch.
  pose proof (dd_get_insert (prevstatus s) id (Some (status d))) as Hins.
  cbn [prevstatus emit].
  destruct (dd_get (prevstatus s) id) as [prev m]. cbn [fst snd] in *.
  rewrite bool_decide_true by done. cbn [prevstatus emit set_prevstatus]. done.
Qed.

Lemma state_eq (s1 s2 : state) :
  prevstatus s1 = prevstatus s2 -> failed_ids s1 = failed_ids s2 ->
  watched s1 = watched s2 -> done s1 = done s2 -> round s1 = round s2 ->
  ticks s1 = ticks s2 -> out s1 = out s2 -> s1 = s2.
Proof. destruct s1, s2; cbn; intros; by subst. Qed.

Lemma ledger_start id : ledger (State ∅ [] ∅ ∅ 0 0 []) id = None.
Proof. unfold ledger. cbn [prevstatus]. by rewrite lookup_empty. Qed.

Lemma no_unknown_step E c : no_unknown c -> no_unknown (step E c).
Proof.
  unfold no_unknown. destruct (step_view_step E c); cbn [fst snd live];
    intros Hinv Hl; try done; try (by apply Hinv);
    intros id'.
  change (ledger (tick ?s) id') with (ledger s id').
  rewrite handled_ledger. case_bool_decide; [congruence|by apply Hinv].
Qed.

Lemma no_unknown_run E ids n : no_unknown (_watch_builds E ids n).
Proof.
  unfold _watch_builds. apply (run_invariant no_unknown); [|apply no_unknown_step].
  intros _ id. cbn [snd start]. by rewrite ledger_start.
Qed.

(** ** Texts *)

Lemma prefix_self x : String.prefix x x = true.
Proof.
  induction x as [|a x IH]; [done|]. simpl.
  destruct (Ascii.ascii_dec a a); [exact IH|done].
Qed.

Lemma prefix_app_l x a b :
  String.prefix x a = true -> String.prefix x (a +:+ b) = true.
Proof.
  revert a. induction x as [|c x IH]; intros a H.
  - by destruct (a +:+ b).
  - destruct a as [|c' a]; [done|]. simpl in *.
    destruct (Ascii.ascii_dec c c'); [by apply IH|done].
Qed.

Lemma mentions_self x : mentions x x = true.
Proof. destruct x; cbn [mentions]; by rewrite prefix_self. Qed.

Lemma mentions_app_l x a b :
  mentions x a = true -> mentions x (a +:+ b) = true.
Proof.
  induction a as [|c a IH]; cbn [mentions]; intros H.
  - rewrite orb_false_r in H. pose proof (prefix_app_l x EmptyString b H) as Hp.
    change (EmptyString +:+ b) with b in *. destruct b; cbn [mentions]; by rewrite Hp.
  - apply orb_true_iff in H as [H|H].
    + pose proof (prefix_app_l x (String c a) b H) as Hp.
      change (String c a +:+ b) with (String c (a +:+ b)) in *.
      cbn [mentions]. by rewrite Hp.
    + change (String c a +:+ b) with (String c (a +:+ b)).
      cbn [mentions]. rewrite IH by done. apply orb_true_r.
Qed.

Lemma mentions_app_r x a b :
  mentions x b = true -> mentions x (a +:+ b) = true.
Proof.
  intros H. induction a as [|c a IH]; [done|].
  change (String c a +:+ b) with (String c (a +:+ b)).
  cbn [mentions]. rewrite IH. apply orb_true_r.
Qed.

Lemma mentions_errmsg_id err id : mentions (str id) (errmsg err id) = true.
Proof. apply mentions_app_r, mentions_app_l, mentions_self. Qed.

Lemma mentions_errmsg_detail err id : mentions err (errmsg err id) = true.
Proof. do 3 apply mentions_app_r. apply mentions_self. Qed.

Lemma mentions_join x sep l : x ∈ l -> mentions x (join sep l) = true.
Proof.
  induction l as [|y l IH]; [by intros ?%elem_of_nil|].
  intros [->|Hin]%elem_of_cons.
  - destruct l; [apply mentions_self|]. apply mentions_app_l, mentions_self.
  - destruct l as [|z l]; [by apply elem_of_nil in Hin|].
    change (join sep (y :: z :: l)) with (y +:+ sep +:+ join sep (z :: l)).
    do 2 apply mentions_app_r. by apply IH.
Qed.

Lemma mentions_failed_msg id failed :
  id ∈ failed -> mentions (str id) (failed_msg failed) = true.
Proof.
  intros H. unfold failed_msg.
  apply mentions_app_r, mentions_app_l, mentions_join.
  apply list_elem_of_fmap. eauto.
Qed.

(** ** The done set *)

Lemma terminal_true_done E id d s :
  done s ⊆ done (handled E id d s).
Proof.
  rewrite handled_done. destruct (terminal (status d)); [|done].
  apply union_subseteq_r.
Qed.

Lemma query_fresh_step E c : query_fresh c -> query_fresh (step E c).
Proof.
  unfold query_fresh. destruct (step_view_step E c); cbn [fst snd]; try done.
Qed.

Lemma query_fresh_run E ids n : query_fresh (_watch_builds E ids n).
Proof.
  unfold _watch_builds. apply (run_invariant query_fresh); [done|].
  apply query_fresh_step.
Qed.

Lemma done_watched_step E c :
  iter_ok E -> done_watched c -> done_watched (step E c).
Proof.
  intros Hit. unfold done_watched.
  destruct (step_view_step E c); cbn [fst snd tick emit next_round watched done];
    intros [Hsub Hpc]; try done.
  - split; [done|]. intros x Hx. by apply Hit in Hx.
  - split; [done|]. intros x Hx. apply Hpc. by right.
  - split; [done|]. split; [apply Hpc; by left|].
    intros x Hx. apply Hpc. by right.
  - rewrite handled_watched, handled_done. destruct Hpc as [Hid Hrest].
    split; [|done]. destruct (terminal (status d)); [|done].
    apply union_subseteq. split; [by apply singleton_subseteq_l|done].
  - rewrite handled_watched, handled_done. destruct Hpc as [Hid Hrest].
    split; [|done]. destruct (terminal (status d)); [|done].
    apply union_subseteq. split; [by apply singleton_subseteq_l|done].
Qed.

Lemma done_watched_run E ids n :
  iter_ok E -> done_watched (_watch_builds E ids n).
Proof.
  intros Hit. unfold _watch_builds.
  apply (run_invariant done_watched); [|intros c; by apply done_watched_step].
  split; [|done]. done.
Qed.

Lemma queries_app tr tr' : queries (tr ++ tr') = queries tr ++ queries tr'.
Proof.
  induction tr as [|ev tr IH]; [done|].
  destruct ev; cbn [queries app]; by rewrite ?IH.
Qed.

Lemma elem_of_queries id tr :
  id ∈ queries tr <->
  (exists d, Queried id d ∈ tr) \/ (exists e, Failed_query id e ∈ tr).
Proof.
  induction tr as [|ev tr IH].
  - split; [by intros ?%elem_of_nil|].
    intros [[? ?%elem_of_nil]|[? ?%elem_of_nil]]; done.
  - assert ((exists d, Queried id d ∈ tr) \/ (exists e, Failed_query id e ∈ tr) ->
            (exists d, Queried id d ∈ ev :: tr) \/
            (exists e, Failed_query id e ∈ ev :: tr)) as Htl.
    { intros [[d ?]|[e ?]]; [left; exists d|right; exists e]; by right. }
    destruct ev as [|id0 d0|id0 e0| | |]; cbn [queries];
      rewrite ?elem_of_cons, IH; split;
      try (intros [->|H]; [|by apply Htl]);
      try (by apply Htl);
      try (intros [[d [?|?]%elem_of_cons]|[e [?|?]%elem_of_cons]];
           simplify_eq; eauto).
    + left. exists d0. by left.
    + right. exists e0. by left.
Qed.

Lemma step_grows E c :
  query_fresh c ->
  done (snd c) ⊆ done (snd (step E c)) /\
  exists evs, out (snd (step E c)) = out (snd c) ++ evs /\
    forall id, id ∈ queries evs -> id ∉ done (snd c).
Proof.
  unfold query_fresh.
  destruct (step_view_step E c);
    cbn [fst snd tick emit next_round done out]; intros Hq;
    try (split; [done|]);
    try (exists []; split; [by rewrite app_nil_r|by intros ? ?%elem_of_nil]).
  - exists [Interrupted]. split; [done|]. by intros id ?%elem_of_nil.
  - split; [by rewrite Hq|]. exists [Banner]. split; [done|].
    by intros id ?%elem_of_nil.
  - exists [Interrupted]. split; [done|]. by intros id ?%elem_of_nil.
  - exists [Queried id d]. split; [done|].
    by intros id' ->%list_elem_of_singleton.
  - split; [apply terminal_true_done|]. rewrite handled_out. eexists. split; [done|].
    cbn [queries]. intros id' [->|Hin]%elem_of_cons; [done|].
    case_bool_decide; by apply elem_of_nil in Hin.
  - split; [apply terminal_true_done|]. rewrite handled_out. eexists. split; [done|].
    cbn [queries]. intros id' [->|Hin]%elem_of_cons; [done|].
    case_bool_decide; by apply elem_of_nil in Hin.
  - exists [Slept 30]. split; [done|]. by intros id ?%elem_of_nil.
  - exists [Failed_query id e]. split; [done|].
    by intros id' ->%list_elem_of_singleton.
Qed.

Lemma run_grows E ids n k :
  let s := snd (_watch_builds E ids n) in
  let s' := snd (_watch_builds E ids (n + k)) in
  done s ⊆ done s' /\
  exists evs, out s' = out s ++ evs /\
    forall id, id ∈ done s -> id ∉ queries evs.
Proof.
  cbn zeta. induction k as [|k IH].
  - rewrite Nat.add_0_r. split; [done|]. exists []. split; [by rewrite app_nil_r|].
    intros id _ ?%elem_of_nil. done.
  - replace (n + S k)%nat with (S (n + k)) by lia.
    destruct IH as [Hsub (evs & Hout & Hq)].
    unfold _watch_builds in *. rewrite run_S.
    destruct (step_grows E (run E (n + k) (start ids))) as [Hsub' (evs' & Hout' & Hq')].
    { apply query_fresh_run. }
    split; [by transitivity (done (snd (run E (n + k) (start ids))))|].
    exists (evs ++ evs'). split.
    + by rewrite Hout', Hout, app_assoc.
    + intros id Hin. rewrite queries_app. intros [Hev|Hev]%elem_of_app.
      * by apply (Hq id).
      * apply (Hq' id Hev). by apply Hsub.
Qed.


(** ** Notifications *)

Lemma observed_app id tr tr' :
  observed id (tr ++ tr') = observed id tr ++ observed id tr'.
Proof.
  induction tr as [|ev tr IH]; [done|].
  destruct ev; cbn [observed app]; try done.
  case_bool_decide; by rewrite IH.
Qed.

Lemma notified_app id tr tr' :
  notified id (tr ++ tr') = notified id tr ++ notified id tr'.
Proof.
  induction tr as [|ev tr IH]; [done|].
  destruct ev; cbn [notified app]; try done.
  case_bool_decide; by rewrite IH.
Qed.

Lemma compress_snoc l x :
  compress (l ++ [x]) =
    if bool_decide (last l = Some x) then compress l else compress l ++ [x].
Proof.
  induction l as [|y l IH]; [done|].
  destruct l as [|z l].
  - cbn. repeat case_bool_decide; congruence.
  - change ((y :: z :: l) ++ [x]) with (y :: (z :: l) ++ [x]).
    change (last (y :: z :: l)) with (last (z :: l)) in *.
    change (compress (y :: (z :: l) ++ [x])) with
      (if bool_decide (y = z) then compress ((z :: l) ++ [x])
       else y :: compress ((z :: l) ++ [x])).
    change (compress (y :: z :: l)) with
      (if bool_decide (y = z) then compress (z :: l) else y :: compress (z :: l)).
    rewrite IH. repeat case_bool_decide; done.
Qed.

Lemma ledger_follows_handled E id id0 d s :
  output d = "ok" ->
  notified id (out s) = compress (observed id (out s)) ->
  ledger s id = last (observed id (out s)) ->
  notified id (out (handled E id0 d s)) =
    compress (observed id (out (handled E id0 d s))) /\
  ledger (handled E id0 d s) id = last (observed id (out (handled E id0 d s))).
Proof.
  intros Hok Hn Hl. rewrite handled_out, handled_ledger.
  rewrite observed_app, notified_app. cbn [observed notified].
  destruct (decide (id0 = id)) as [->|Hne].
  - rewrite (bool_decide_true (id = id)) by done.
    rewrite (bool_decide_true (id = id ∧ _)) by done.
    assert (observed id
              (if bool_decide (ledger s id ≠ Some (status d))
               then [Notified (strftime E (ticks s)) (status d) id] else []) = [])
      as -> by (by case_bool_decide).
    rewrite compress_snoc, last_snoc, <- Hl, <- Hn. split; [|done].
    case_bool_decide as Hch.
    + rewrite bool_decide_false by done. cbn [notified].
      by rewrite bool_decide_true.
    + rewrite bool_decide_true by done. by rewrite app_nil_r.
  - rewrite (bool_decide_false (id = id0)) by done.
    rewrite (bool_decide_false (id0 = id ∧ _)) by (by intros [? _]).
    assert (forall b : bool,
              observed id (if b then [Notified (strftime E (ticks s)) (status d) id0]
                           else []) = []) as -> by (by intros []).
    assert (forall b : bool,
              notified id (if b then [Notified (strftime E (ticks s)) (status d) id0]
                           else []) = []) as ->.
    { intros []; [|done]. cbn [notified]. by rewrite bool_decide_false. }
    by rewrite !app_nil_r.
Qed.

Lemma ledger_follows_step E id c :
  started (fst c) -> ledger_follows id c -> ledger_follows id (step E c).
Proof.
  unfold ledger_follows.
  destruct (step_view_step E c) as
    [ | | | | | | | | |id0 rest s d Hs Hget Hok|id0 rest s d Hs Hget Hok Hun
     |id0 rest s d Hs Hget Hok Hun| | | | | | ];
    cbn [fst snd tick emit next_round out];
    change (ledger (tick ?s) id) with (ledger s id);
    intros Hst [Hn Hl]; try done;
    try (by apply ledger_follows_handled);
    rewrite ?observed_app, ?notified_app; cbn [observed notified];
    rewrite ?app_nil_r; try done.
  rewrite bool_decide_false by (intros [_ ?]; done). by rewrite app_nil_r.
Qed.

Lemma ledger_follows_run E ids n id : ledger_follows id (_watch_builds E ids n).
Proof.
  unfold _watch_builds. apply (run_invariant_started (ledger_follows id)).
  - split; [done|]. apply ledger_start.
  - unfold start, step. cbn [ticks]. destruct (sigint E 0); split; try done.
  - intros c. apply ledger_follows_step.
Qed.


(** ** The failed list *)

Lemma failed_of_app tr tr' : failed_of (tr ++ tr') = failed_of tr ++ failed_of tr'.
Proof.
  induction tr as [|ev tr IH]; [done|].
  destruct ev; cbn [failed_of app]; try done.
  case_bool_decide; by rewrite IH.
Qed.

Lemma clean_app tr tr' : clean (tr ++ tr') = clean tr && clean tr'.
Proof. apply forallb_app. Qed.

Lemma clean_snoc_false tr ev : clean_event ev = false -> clean (tr ++ [ev]) = false.
Proof.
  intros H. rewrite clean_app. cbn. rewrite H. by rewrite andb_false_r.
Qed.

Lemma elem_of_failed_of id tr :
  id ∈ failed_of tr <->
  exists d, Queried id d ∈ tr /\ output d = "ok" /\ status d = "failed".
Proof.
  induction tr as [|ev tr IH].
  - split; [by intros ?%elem_of_nil|by intros (d & ?%elem_of_nil & _)].
  - assert (forall ev', (forall i d, ev' ≠ Queried i d) ->
              (exists d, Queried id d ∈ ev' :: tr /\ output d = "ok" /\ status d = "failed")
              <-> (exists d, Queried id d ∈ tr /\ output d = "ok" /\ status d = "failed"))
      as Hskip.
    { intros ev' Hne. split; intros (d & Hin & H); exists d; (split; [|done]).
      - apply elem_of_cons in Hin as [Heq|Hin]; [|done]. by destruct (Hne id d).
      - by right. }
    destruct ev as [|id0 d0| | | |]; cbn [failed_of];
      try (rewrite IH; symmetry; by apply Hskip).
    case_bool_decide as Hf.
    + rewrite elem_of_cons, IH. split.
      * intros [->|(d & Hin & H)]; [exists d0|exists d]; (split; [|done]);
          [by left|by right].
      * intros (d & [[= -> ->]|Hin]%elem_of_cons & H); [by left|right; eauto].
    + rewrite IH. split.
      * intros (d & Hin & H). exists d. split; [by right|done].
      * intros (d & [[= -> ->]|Hin]%elem_of_cons & H); [done|eauto].
Qed.

Lemma settling_handled E id d s :
  output d = "ok" -> id ∉ done s ->
  failed_ids s = failed_of (out s) ->
  NoDup (failed_ids s) ->
  (forall x, x ∈ failed_ids s -> x ∈ done s) ->
  (forall x, x ∈ done s ->
     exists d, Queried x d ∈ out s /\ output d = "ok" /\ terminal (status d) = true) ->
  let s' := handled E id d s in
  failed_ids s' = failed_of (out s') /\
  NoDup (failed_ids s') /\
  (forall x, x ∈ failed_ids s' -> x ∈ done s') /\
  (forall x, x ∈ done s' ->
     exists d, Queried x d ∈ out s' /\ output d = "ok" /\ terminal (status d) = true).
Proof.
  intros Hok Hfresh Hf Hnd Hfd Hdt s'. subst s'.
  rewrite handled_failed_ids, handled_out, handled_done, failed_of_app.
  cbn [failed_of].
  assert (forall b : bool,
            failed_of (if b then [Notified (strftime E (ticks s)) (status d) id]
                       else []) = []) as -> by (by intros []).
  split; [|split; [|split]].
  - rewrite <- Hf. case_bool_decide as Hst.
    + by rewrite bool_decide_true.
    + rewrite bool_decide_false by (by intros [_ ?]). by rewrite app_nil_r.
  - case_bool_decide; [|done]. apply NoDup_app. split; [done|].
    split; [|apply NoDup_singleton].
    intros x Hx ->%list_elem_of_singleton. by apply Hfresh, Hfd.
  - intros x Hx. case_bool_decide as Hst.
    + assert (terminal (status d) = true) as -> by (by rewrite Hst).
      apply elem_of_app in Hx as [Hx| ->%list_elem_of_singleton].
      * apply elem_of_union_r. by apply Hfd.
      * apply elem_of_union_l. by apply elem_of_singleton.
    + destruct (terminal (status d)); [apply elem_of_union_r|]; by apply Hfd.
  - intros x Hx. destruct (terminal (status d)) eqn:Hterm.
    + apply elem_of_union in Hx as [->%elem_of_singleton|Hx].
      * exists d. split; [|done]. apply elem_of_app. right. by left.
      * destruct (Hdt x Hx) as (d' & Hin & H). exists d'. split; [|done].
        apply elem_of_app. by left.
    + destruct (Hdt x Hx) as (d' & Hin & H). exists d'. split; [|done].
      apply elem_of_app. by left.
Qed.

Lemma settling_emit (s : state) evs :
  failed_of evs = [] ->
  failed_ids s = failed_of (out s) ->
  (forall x, x ∈ done s ->
     exists d, Queried x d ∈ out s /\ output d = "ok" /\ terminal (status d) = true) ->
  failed_ids s = failed_of (out s ++ evs) /\
  (forall x, x ∈ done s ->
     exists d, Queried x d ∈ out s ++ evs /\ output d = "ok" /\
               terminal (status d) = true).
Proof.
  intros Hevs Hf Hdt. split.
  - by rewrite failed_of_app, Hevs, app_nil_r.
  - intros x Hx. destruct (Hdt x Hx) as (d & Hin & H). exists d.
    split; [|done]. apply elem_of_app. by left.
Qed.

Lemma clean_handled_unknown E id d s :
  status d = "unknown" -> clean (out (handled E id d s)) = false.
Proof.
  intros Hun. rewrite handled_out, clean_app. cbn [clean forallb clean_event].
  rewrite (bool_decide_true (status d = "unknown")) by done.
  cbn [negb]. by rewrite andb_false_r, andb_false_l, andb_false_r.
Qed.

Lemma settling_step E ids c :
  started (fst c) -> query_fresh c -> settling ids c -> settling ids (step E c).
Proof.
  unfold settling, query_fresh.
  destruct (step_view_step E c) as
    [ | | |p s Hp Hs| | | | | |id0 rest s d Hs Hget Hok|id0 rest s d Hs Hget Hok Hun
     |id0 rest s d Hs Hget Hok Hun| | | |s Hs Hnil|s Hs Hne|id0 rest s e Hs Hget];
    cbn [fst snd tick emit next_round out failed_ids done watched];
    intros Hst Hq (Hf & Hnd & Hfd & Hdt & Hpc); try done.
  - destruct (settling_emit s [Interrupted]) as [Hf' Hdt']; try done.
    do 4 (split; [done|]). by rewrite clean_snoc_false.
  - destruct (settling_emit s [Queried id0 d]) as [Hf' Hdt']; try done.
    { cbn [failed_of]. by rewrite bool_decide_false by (by intros [? _]). }
    do 4 (split; [done|]). rewrite clean_snoc_false; [done|].
    cbn [clean_event]. by rewrite bool_decide_false.
  - destruct (settling_handled E id0 d s) as (Hf' & Hnd' & Hfd' & Hdt'); try done.
    do 4 (split; [done|]). by rewrite clean_handled_unknown.
  - destruct (settling_handled E id0 d s) as (Hf' & Hnd' & Hfd' & Hdt'); try done.
    do 4 (split; [done|]). by rewrite handled_watched.
  - destruct (settling_emit s [Slept 30]) as [Hf' Hdt']; try done.
  - do 4 (split; [done|]). intros _. destruct Hpc as [Hw Hd].
    do 2 (split; [done|]). by rewrite Hnil.
  - do 4 (split; [done|]). intros _. destruct Hpc as [Hw Hd].
    do 2 (split; [done|]). by destruct (failed_ids s).
  - destruct (settling_emit s [Failed_query id0 e]) as [Hf' Hdt']; try done.
    do 4 (split; [done|]). by rewrite clean_snoc_false.
Qed.

Lemma settling_run E ids n : settling ids (_watch_builds E ids n).
Proof.
  enough (query_fresh (_watch_builds E ids n) /\ settling ids (_watch_builds E ids n))
    as [_ ?]; [done|].
  unfold _watch_builds.
  apply (run_invariant_started (fun c => query_fresh c /\ settling ids c)).
  - split; [done|]. unfold settling, start. cbn [fst snd failed_ids out done failed_of].
    split; [done|]. split; [apply NoDup_nil_2|]. split; [by intros x ?%elem_of_nil|].
    split; [|done]. by intros x ?%elem_of_empty.
  - split; [apply query_fresh_step; done|].
    unfold settling, start, step. cbn [ticks]. destruct (sigint E 0);
      cbn [fst snd tick emit failed_ids out done watched app failed_of].
    + split; [done|]. split; [apply NoDup_nil_2|]. split; [by intros x ?%elem_of_nil|].
      split; [by intros x ?%elem_of_empty|done].
    + split; [done|]. split; [apply NoDup_nil_2|]. split; [by intros x ?%elem_of_nil|].
      split; [by intros x ?%elem_of_empty|done].
  - intros c Hst [Hq Hs]. split; [by apply query_fresh_step|by apply settling_step].
Qed.


(** ** A watch of builds that all succeed *)

Lemma run_trans E m m' c c' c'' :
  run E m c = c' -> run E m' c' = c'' -> run E (m + m') c = c''.
Proof. intros H1 H2. by rewrite run_add, H1. Qed.

Lemma run_1 E c : run E 1 c = step E c.
Proof. reflexivity. Qed.

Lemma succeeds_at_ge E id r k :
  succeeds_at E id r -> (k <= r)%nat ->
  answers E k id (fun st => st ≠ "failed" /\ st ≠ "unknown").
Proof.
  intros [(d & Hget & Hok & Hst) Hbefore] Hle.
  destruct (decide (k = r)) as [->|Hne].
  - exists d. by rewrite Hst.
  - apply Hbefore. lia.
Qed.

(** ** The examples' environments *)

Lemma sorted_iter_ok (X : gset Z) (x : Z) : x ∈ sorted_iter X <-> x ∈ X.
Proof.
  unfold sorted_iter. rewrite merge_sort_Permutation. apply elem_of_elements.
Qed.

(** ** Two calls that visit the watch set in the same order *)

Lemma stmt_same_service E E' p s :
  same_service E E' -> set_iter E' (watched s) = set_iter E (watched s) ->
  stmt E' p s = stmt E p s.
Proof.
  intros (Hget & Hsig & Hclock) Hiter.
  destruct p; cbn [stmt]; try done.
  - by rewrite Hiter.
  - unfold body. rewrite <- Hget.
    destruct (get_build_details E (round s) build_id); [|done].
    by rewrite <- Hclock.
Qed.

Lemma step_same_service E E' (W : gset Z) c :
  same_service E E' -> set_iter E' W = set_iter E W ->
  started (fst c) -> (live (fst c) -> watched (snd c) = W) ->
  step E' c = step E c /\
  (live (fst (step E c)) -> watched (snd (step E c)) = W).
Proof.
  intros Hsame Hiter Hst Hw. split.
  - destruct c as [p s]. destruct p; try done; cbn [fst snd] in *;
      rewrite !step_in_try by done;
      destruct Hsame as (Hget & Hsig & Hclock); rewrite <- Hsig;
      (destruct (sigint E (ticks s)); [done|]);
      apply stmt_same_service; try done; by rewrite (Hw I).
  - revert Hst Hw.
    destruct (step_view_step E c);
      cbn [fst snd live started tick emit next_round watched];
      rewrite ?handled_watched; try done; intros _ Hw _; by apply Hw.
Qed.

Lemma watch_same_order E E' l l' n :
  same_service E E' ->
  (list_to_set l' : gset Z) = list_to_set l ->
  set_iter E' (list_to_set l') = set_iter E (list_to_set l) ->
  snd (_watch_builds E' l' n) = snd (_watch_builds E l n) /\
  result (_watch_builds E' l' n) = result (_watch_builds E l n).
Proof.
  intros Hsame Hset Hiter. destruct n as [|n]; [done|].
  unfold _watch_builds. change (S n) with (1 + n)%nat. rewrite !run_add.
  assert (run E' 1 (start l') = run E 1 (start l)) as ->.
  { unfold start. change (run ?E 1 ?c) with (step E c).
    unfold step. cbn [ticks]. destruct Hsame as (_ & Hsig & _).
    rewrite <- Hsig. destruct (sigint E 0); [done|]. by rewrite Hset. }
  enough (run E' n (run E 1 (start l)) = run E n (run E 1 (start l)) /\
          started (fst (run E n (run E 1 (start l)))) /\
          (live (fst (run E n (run E 1 (start l)))) ->
           watched (snd (run E n (run E 1 (start l)))) = list_to_set l))
    as [-> _]; [done|].
  rewrite Hset in Hiter.
  induction n as [|n (IH & Hst & Hw)].
  - split; [done|]. change (run E 1 ?c) with (step E c).
    split; [apply started_step|].
    unfold start, step. cbn [ticks]. by destruct (sigint E 0).
  - rewrite (run_S E' n), (run_S E n), IH.
    destruct (step_same_service E E' (list_to_set l) _ Hsame Hiter Hst Hw)
      as [Hstep Hw'].
    split; [done|]. split; [apply started_step|done].
Qed.

(** * The claims *)

(** ** C1: all builds succeed *)

Section AllSucceed.
Variables (E : Env) (ids : list Z) (N : nat).
Hypothesis iter_members : iter_ok E.
Hypothesis no_sigint : forall t, sigint E t = false.
Hypothesis all_succeed :
  forall id, id ∈ ids -> exists r, (r < N)%nat /\ succeeds_at E id r.

Lemma round_inv_handled k id s :
  round_inv E ids k s -> id ∈ watched s -> id ∉ done s ->
  exists d, get_build_details E k id = Report d /\
  output d = "ok" /\ status d ≠ "unknown" /\
  round_inv E ids k (handled E id d s) /\
  done s ⊆ done (handled E id d s) /\
  (succeeds_at E id k -> id ∈ done (handled E id d s)).
Proof.
  intros (Hr & Hw & Hf & Hsub & Hdone) Hin Hfresh.
  destruct (all_succeed id) as (r & HrN & Hsucc).
  { rewrite Hw in Hin. by apply elem_of_list_to_set in Hin. }
  assert (k <= r)%nat as Hle.
  { destruct (decide (k <= r)%nat) as [|Hgt]; [done|].
    destruct Hfresh. apply (Hdone id r); [done..|lia]. }
  destruct (succeeds_at_ge E id r k Hsucc Hle) as (d & Hget & Hok & Hnf & Hnu).
  exists d. split; [done|]. split; [done|]. split; [done|]. split; [|split].
  - unfold round_inv.
    rewrite handled_round, handled_watched, handled_failed_ids, handled_done.
    rewrite bool_decide_false by done. do 3 (split; [done|]). split.
    + destruct (terminal (status d)); [|done].
      apply union_subseteq. split; [by apply singleton_subseteq_l|done].
    + intros id' r' Hin' Hs' Hlt. specialize (Hdone id' r' Hin' Hs' Hlt).
      destruct (terminal (status d)); [by apply elem_of_union_r|done].
  - apply terminal_true_done.
  - intros [(d' & Hget' & _ & Hst) _]. rewrite handled_done.
    assert (d' = d) as -> by congruence. rewrite Hst.
    apply elem_of_union_l. by apply elem_of_singleton.
Qed.

Lemma for_loop k rest : forall s,
  round_inv E ids k s -> (forall x, x ∈ rest -> x ∈ watched s) ->
  exists m s', run E m (PFor rest, s) = (PAfterFor, s') /\
    round_inv E ids k s' /\ done s ⊆ done s' /\
    forall x, x ∈ rest -> succeeds_at E x k -> x ∈ done s'.
Proof.
  induction rest as [|id rest IH]; intros s Hinv Hrest.
  - exists 1%nat, (tick s). rewrite run_1, step_stmt by done.
    split; [done|]. split; [done|]. split; [done|].
    by intros x ?%elem_of_nil.
  - destruct (decide (id ∈ done s)) as [Hdone|Hfresh].
    + destruct (IH (tick s)) as (m & s' & Hrun & Hinv' & Hsub & Hsucc);
        [done|intros x Hx; apply Hrest; by right|].
      exists (1 + m)%nat, s'. split.
      { eapply run_trans; [|exact Hrun]. rewrite run_1, step_stmt by done.
        cbn [stmt]. by rewrite bool_decide_true. }
      split; [done|]. split; [done|].
      intros x [->|Hx]%elem_of_cons Hs; [by apply Hsub|by apply Hsucc].
    + assert (id ∈ watched s) as Hin by (apply Hrest; by left).
      destruct (round_inv_handled k id (tick s) Hinv Hin Hfresh)
        as (d & Hget & Hok & Hnu & Hinv1 & Hsub1 & Hsucc1).
      destruct (IH (tick (handled E id d (tick s))))
        as (m & s' & Hrun & Hinv' & Hsub & Hsucc);
        [done|intros x Hx; cbn [watched tick]; rewrite handled_watched;
              apply Hrest; by right|].
      exists (2 + m)%nat, s'. split.
      { eapply run_trans; [|exact Hrun].
        change 2%nat with (1 + 1)%nat. eapply run_trans.
        - rewrite run_1, step_stmt by done. cbn [stmt].
          by rewrite bool_decide_false.
        - rewrite run_1, step_stmt by done. cbn [stmt]. unfold body.
          destruct Hinv as (Hr & _). cbn [round tick]. rewrite Hr, Hget.
          rewrite bool_decide_false by (intros H; by apply H).
          by rewrite bool_decide_false. }
      split; [done|]. split.
      { transitivity (done (handled E id d (tick s))); [done|]. exact Hsub. }
      intros x [->|Hx]%elem_of_cons Hs; [|by apply Hsucc].
      apply Hsub. by apply Hsucc1.
Qed.

(** Leaving the loop with an empty failed list. *)
Lemma settle_returns k s :
  round_inv E ids k s ->
  run E 1 (PSettle, s) = (PExit Returned, tick s).
Proof.
  intros (_ & _ & Hf & _). rewrite run_1, step_stmt by done.
  cbn [stmt]. by rewrite Hf.
Qed.

Lemma all_done k s :
  round_inv E ids k s -> (N <= k)%nat -> watched s = done s.
Proof.
  intros (Hr & Hw & Hf & Hsub & Hdone) Hle. apply set_eq. intros x. split.
  - intros Hx. destruct (all_succeed x) as (r & HrN & Hsucc).
    { rewrite Hw in Hx. by apply elem_of_list_to_set in Hx. }
    apply (Hdone x r); [done..|lia].
  - apply Hsub.
Qed.

Lemma while_loop j : forall k s,
  (N <= k + j)%nat -> round_inv E ids k s ->
  exists m s', run E m (PWhile, s) = (PExit Returned, s') /\
    watched s' = list_to_set ids /\ done s' = watched s' /\ failed_ids s' = [].
Proof.
  induction j as [|j IH]; intros k s Hle Hinv.
  - assert (watched s = done s) as Hall by (apply (all_done k); [done|lia]).
    exists 2%nat, (tick (tick s)). split.
    { change 2%nat with (1 + 1)%nat. eapply run_trans.
      - rewrite run_1, step_stmt by done. cbn [stmt].
        by rewrite bool_decide_false by (intros H; by apply H).
      - by apply (settle_returns k). }
    destruct Hinv as (_ & Hw & Hf & _). done.
  - destruct (decide (watched s = done s)) as [Hall|Hmore].
    { exists 2%nat, (tick (tick s)). split.
      { change 2%nat with (1 + 1)%nat. eapply run_trans.
        - rewrite run_1, step_stmt by done. cbn [stmt].
          by rewrite bool_decide_false by (intros H; by apply H).
        - by apply (settle_returns k). }
      destruct Hinv as (_ & Hw & Hf & _). done. }
    destruct (for_loop k (set_iter E (watched s)) (tick s))
      as (m & s1 & Hrun & Hinv1 & Hsub1 & Hsucc1);
      [done|intros x Hx; by apply iter_members in Hx|].
    assert (run E (1 + m) (PWhile, s) = (PAfterFor, s1)) as Hround.
    { eapply run_trans; [|exact Hrun]. rewrite run_1, step_stmt by done.
      cbn [stmt]. by rewrite bool_decide_true. }
    destruct (decide (watched s1 = done s1)) as [Hall1|Hmore1].
    { exists ((1 + m) + (1 + 1))%nat, (tick (tick s1)). split.
      { eapply run_trans; [exact Hround|]. eapply run_trans.
        - rewrite run_1, step_stmt by done. cbn [stmt].
          by rewrite bool_decide_true.
        - by apply (settle_returns k). }
      destruct Hinv1 as (_ & Hw & Hf & _). done. }
    destruct (IH (S k) (tick (next_round (emit [Slept 30] (tick s1)))))
      as (m' & s' & Hrun' & Hres); [lia| |].
    { destruct Hinv1 as (Hr1 & Hw1 & Hf1 & Hsubw1 & Hdone1).
      destruct Hinv as (Hr & Hw & _).
      split; [cbn; by rewrite Hr1|]. do 3 (split; [done|]).
      intros id r Hin Hs Hlt. cbn [done tick next_round emit watched] in *.
      destruct (decide (r = k)) as [->|Hne].
      - apply Hsucc1; [|done]. apply iter_members. by rewrite Hw, <- Hw1.
      - apply (Hdone1 id r); [done..|lia]. }
    exists ((1 + m) + (1 + 1) + m')%nat, s'. split; [|done].
    eapply run_trans; [|exact Hrun']. eapply run_trans; [exact Hround|].
    eapply run_trans.
    + rewrite run_1, step_stmt by done. cbn [stmt].
      by rewrite bool_decide_false.
    + by rewrite run_1, step_stmt by done.
Qed.

(** C1.  Take any watch set, empty or not.  If the set is iterated member by
    member, no Ctrl-C arrives, and every identifier is reported succeeded in
    some round below [N], the answers of the rounds before being ok with a
    status that is neither failed nor unknown, then the watch terminates: from
    some step on the call has returned normally, with an empty failed list and
    the done set equal to the watch set. *)
Theorem watch_all_succeed :
  exists n s,
    (forall k, _watch_builds E ids (n + k) = (PExit Returned, s)) /\
    watched s = list_to_set ids /\ done s = watched s /\ failed_ids s = [].
Proof.
  destruct (while_loop N 0%nat
              (tick (State ∅ [] (list_to_set ids) ∅ 0 0 ([] ++ [Banner]))))
    as (m & s & Hrun & Hres); [lia| |].
  { split; [done|]. do 3 (split; [done|]). intros id r _ _ Hlt. lia. }
  exists (1 + m)%nat, s. split; [|done]. intros k.
  unfold _watch_builds. rewrite run_add.
  erewrite run_trans; [apply run_exit| |exact Hrun].
  unfold start. by rewrite run_1, step_start.
Qed.
End AllSucceed.

Lemma watch_all_succeed_witness :
  iter_ok env_101 /\
  (forall t, sigint env_101 t = false) /\
  (forall id, id ∈ [101] -> exists r, (r < 3)%nat /\ succeeds_at env_101 id r) /\
  exists n s,
    (forall k, _watch_builds env_101 [101] (n + k) = (PExit Returned, s)) /\
    watched s = list_to_set [101] /\ done s = watched s /\ failed_ids s = [].
Proof.
  assert (iter_ok env_101) as H1 by (intros X x; apply sorted_iter_ok).
  assert (forall t, sigint env_101 t = false) as H2 by reflexivity.
  assert (forall id, id ∈ [101] ->
            exists r, (r < 3)%nat /\ succeeds_at env_101 id r) as H3.
  { intros id _. exists 2%nat. split; [lia|]. split.
    - by exists (ok "succeeded").
    - intros [|[|r']] Hr'; [by exists (ok "pending")..|lia]. }
  split; [exact H1|]. split; [exact H2|]. split; [exact H3|].
  exact (watch_all_succeed env_101 [101] 3 H1 H2 H3).
Defined.

(** ** C2: some builds fail *)

Lemma terminal_not_unknown st : terminal st = true -> st ≠ "unknown".
Proof. intros H ->. vm_compute in H. done. Qed.

Lemma answers_report E r id (P Q : string -> Prop) :
  answers E r id P -> answers E r id Q ->
  exists d, get_build_details E r id = Report d /\ output d = "ok" /\
            P (status d) /\ Q (status d).
Proof.
  intros (d & Hget & Hok & HP) (d' & Hget' & _ & HQ).
  assert (d' = d) as -> by congruence. by exists d.
Qed.

(** The first terminal round of a build is unique. *)
Lemma terminates_at_unique E id r r' :
  terminates_at E id r -> terminates_at E id r' -> r = r'.
Proof.
  intros [Hr Hbefore] [Hr' Hbefore'].
  destruct (Nat.lt_trichotomy r r') as [Hlt|[Heq|Hgt]]; [|done|].
  - destruct (answers_report E r id _ _ Hr (Hbefore' r Hlt))
      as (d & _ & _ & Ht & Hf & _). congruence.
  - destruct (answers_report E r' id _ _ Hr' (Hbefore r' Hgt))
      as (d & _ & _ & Ht & Hf & _). congruence.
Qed.

Lemma clean_handled E id d s :
  clean (out s) = true -> output d = "ok" -> status d ≠ "unknown" ->
  clean (out (handled E id d s)) = true.
Proof.
  intros Hc Hok Hun. rewrite handled_out, clean_app, Hc.
  cbn [clean forallb clean_event andb].
  rewrite bool_decide_true by done. rewrite bool_decide_false by done.
  by case_bool_decide.
Qed.

Lemma elem_of_handled_out E id d s ev :
  ev ∈ out (handled E id d s) ->
  ev ∈ out s \/ ev = Queried id d \/
  ev = Notified (strftime E (ticks s)) (status d) id.
Proof.
  rewrite handled_out.
  intros [?|[->|Hin]%elem_of_cons]%elem_of_app; [by left|auto|].
  case_bool_decide; [|by apply elem_of_nil in Hin].
  apply list_elem_of_singleton in Hin. auto.
Qed.

Section PartialFailure.
Variables (E : Env) (ids : list Z) (N : nat).
Hypothesis iter_members : iter_ok E.
Hypothesis no_sigint : forall t, sigint E t = false.
Hypothesis all_terminate :
  forall id, id ∈ ids -> exists r, (r < N)%nat /\ terminates_at E id r.

Lemma poll_inv_handled k id s :
  poll_inv E ids k s -> id ∈ watched s -> id ∉ done s ->
  exists d, get_build_details E k id = Report d /\
  output d = "ok" /\ status d ≠ "unknown" /\
  poll_inv E ids k (handled E id d s) /\
  done s ⊆ done (handled E id d s) /\
  (terminates_at E id k -> id ∈ done (handled E id d s)).
Proof.
  intros (Hr & Hw & Hsub & Hclean & Hdone & Htrace) Hin Hfresh.
  destruct (all_terminate id) as (r & HrN & Hterm).
  { rewrite Hw in Hin. by apply elem_of_list_to_set in Hin. }
  assert (k <= r)%nat as Hle.
  { destruct (decide (k <= r)%nat) as [|Hgt]; [done|].
    destruct Hfresh. apply (Hdone id r); [done..|lia]. }
  assert (exists d, get_build_details E k id = Report d /\ output d = "ok" /\
                    status d ≠ "unknown" /\
                    (terminal (status d) = true -> k = r))
    as (d & Hget & Hok & Hnu & Hfirst).
  { destruct (decide (k = r)) as [->|Hne].
    - destruct Hterm as [(d & Hget & Hok & Ht) _]. exists d.
      do 2 (split; [done|]). split; [by apply terminal_not_unknown|done].
    - destruct Hterm as [_ Hbefore].
      destruct (Hbefore k) as (d & Hget & Hok & Ht & Hnu); [lia|].
      exists d. do 3 (split; [done|]). congruence. }
  exists d. do 3 (split; [done|]). split; [|split].
  - unfold poll_inv.
    rewrite handled_round, handled_watched, handled_done.
    do 2 (split; [done|]). split; [|split; [|split]].
    + destruct (terminal (status d)); [|done].
      apply union_subseteq. split; [by apply singleton_subseteq_l|done].
    + by apply clean_handled.
    + intros id' r' Hin' Ht' Hlt. specialize (Hdone id' r' Hin' Ht' Hlt).
      destruct (terminal (status d)); [by apply elem_of_union_r|done].
    + intros id' d' [Hold|[[= -> ->]|[=]]]%elem_of_handled_out Ht'.
      * by apply Htrace.
      * exists r. split; [done|]. by rewrite <- (Hfirst Ht').
  - apply terminal_true_done.
  - intros [(d' & Hget' & _ & Ht) _]. rewrite handled_done.
    assert (d' = d) as -> by congruence. rewrite Ht.
    apply elem_of_union_l. by apply elem_of_singleton.
Qed.

Lemma poll_for_loop k rest : forall s,
  poll_inv E ids k s -> (forall x, x ∈ rest -> x ∈ watched s) ->
  exists m s', run E m (PFor rest, s) = (PAfterFor, s') /\
    poll_inv E ids k s' /\ done s ⊆ done s' /\
    forall x, x ∈ rest -> terminates_at E x k -> x ∈ done s'.
Proof.
  induction rest as [|id rest IH]; intros s Hinv Hrest.
  - exists 1%nat, (tick s). rewrite run_1, step_stmt by done.
    split; [done|]. split; [done|]. split; [done|].
    by intros x ?%elem_of_nil.
  - destruct (decide (id ∈ done s)) as [Hdone|Hfresh].
    + destruct (IH (tick s)) as (m & s' & Hrun & Hinv' & Hsub & Hterm);
        [done|intros x Hx; apply Hrest; by right|].
      exists (1 + m)%nat, s'. split.
      { eapply run_trans; [|exact Hrun]. rewrite run_1, step_stmt by done.
        cbn [stmt]. by rewrite bool_decide_true. }
      split; [done|]. split; [done|].
      intros x [->|Hx]%elem_of_cons Hs; [by apply Hsub|by apply Hterm].
    + assert (id ∈ watched s) as Hin by (apply Hrest; by left).
      destruct (poll_inv_handled k id (tick s) Hinv Hin Hfresh)
        as (d & Hget & Hok & Hnu & Hinv1 & Hsub1 & Hterm1).
      destruct (IH (tick (handled E id d (tick s))))
        as (m & s' & Hrun & Hinv' & Hsub & Hterm);
        [done|intros x Hx; cbn [watched tick]; rewrite handled_watched;
              apply Hrest; by right|].
      exists (2 + m)%nat, s'. split.
      { eapply run_trans; [|exact Hrun].
        change 2%nat with (1 + 1)%nat. eapply run_trans.
        - rewrite run_1, step_stmt by done. cbn [stmt].
          by rewrite bool_decide_false.
        - rewrite run_1, step_stmt by done. cbn [stmt]. unfold body.
          destruct Hinv as (Hr & _). cbn [round tick]. rewrite Hr, Hget.
          rewrite bool_decide_false by (intros H; by apply H).
          by rewrite bool_decide_false. }
      split; [done|]. split.
      { transitivity (done (handled E id d (tick s))); [done|]. exact Hsub. }
      intros x [->|Hx]%elem_of_cons Hs; [|by apply Hterm].
      apply Hsub. by apply Hterm1.
Qed.

(** Leaving the loop: lines 152-155. *)
Lemma settle_step s :
  run E 1 (PSettle, s) = (PExit (settle_outcome (failed_ids s)), tick s).
Proof.
  rewrite run_1, step_stmt by done. cbn [stmt]. by destruct (failed_ids s).
Qed.

Lemma poll_all_done k s :
  poll_inv E ids k s -> (N <= k)%nat -> watched s = done s.
Proof.
  intros (Hr & Hw & Hsub & _ & Hdone & _) Hle. apply set_eq. intros x. split.
  - intros Hx. destruct (all_terminate x) as (r & HrN & Hterm).
    { rewrite Hw in Hx. by apply elem_of_list_to_set in Hx. }
    apply (Hdone x r); [done..|lia].
  - apply Hsub.
Qed.

Lemma poll_while_loop j : forall k s,
  (N <= k + j)%nat -> poll_inv E ids k s ->
  exists m k' s',
    run E m (PWhile, s) = (PExit (settle_outcome (failed_ids s')), s') /\
    poll_inv E ids k' s' /\ watched s' = done s'.
Proof.
  induction j as [|j IH]; intros k s Hle Hinv.
  - assert (watched s = done s) as Hall by (apply (poll_all_done k); [done|lia]).
    exists 2%nat, k, (tick (tick s)). split; [|done].
    change 2%nat with (1 + 1)%nat. eapply run_trans.
    + rewrite run_1, step_stmt by done. cbn [stmt].
      by rewrite bool_decide_false by (intros H; by apply H).
    + exact (settle_step (tick s)).
  - destruct (decide (watched s = done s)) as [Hall|Hmore].
    { exists 2%nat, k, (tick (tick s)). split; [|done].
      change 2%nat with (1 + 1)%nat. eapply run_trans.
      - rewrite run_1, step_stmt by done. cbn [stmt].
        by rewrite bool_decide_false by (intros H; by apply H).
      - exact (settle_step (tick s)). }
    destruct (poll_for_loop k (set_iter E (watched s)) (tick s))
      as (m & s1 & Hrun & Hinv1 & Hsub1 & Hterm1);
      [done|intros x Hx; by apply iter_members in Hx|].
    assert (run E (1 + m) (PWhile, s) = (PAfterFor, s1)) as Hround.
    { eapply run_trans; [|exact Hrun]. rewrite run_1, step_stmt by done.
      cbn [stmt]. by rewrite bool_decide_true. }
    destruct (decide (watched s1 = done s1)) as [Hall1|Hmore1].
    { exists ((1 + m) + (1 + 1))%nat, k, (tick (tick s1)). split; [|done].
      eapply run_trans; [exact Hround|]. eapply run_trans.
      - rewrite run_1, step_stmt by done. cbn [stmt].
        by rewrite bool_decide_true.
      - exact (settle_step (tick s1)). }
    destruct (IH (S k) (tick (next_round (emit [Slept 30] (tick s1)))))
      as (m' & k' & s' & Hrun' & Hres); [lia| |].
    { destruct Hinv1 as (Hr1 & Hw1 & Hsubw1 & Hclean1 & Hdone1 & Htrace1).
      destruct Hinv as (Hr & Hw & _).
      split; [cbn; by rewrite Hr1|]. do 2 (split; [done|]).
      cbn [done tick next_round emit watched out] in *.
      split; [|split].
      - rewrite clean_app, Hclean1. done.
      - intros id r Hin Hs Hlt.
        destruct (decide (r = k)) as [->|Hne].
        + apply Hterm1; [|done]. apply iter_members. by rewrite Hw, <- Hw1.
        + apply (Hdone1 id r); [done..|lia].
      - intros id d [Hin|[=]%list_elem_of_singleton]%elem_of_app.
        by apply Htrace1. }
    exists ((1 + m) + (1 + 1) + m')%nat, k', s'. split; [|done].
    eapply run_trans; [|exact Hrun']. eapply run_trans; [exact Hround|].
    eapply run_trans.
    + rewrite run_1, step_stmt by done. cbn [stmt].
      by rewrite bool_decide_false.
    + by rewrite run_1, step_stmt by done.
Qed.

End PartialFailure.


(** ** C3: an unknown status *)

(** C3, as amended.  When the answer to the query of [id] is ok with status
    unknown, the watch is over at the next step and stays so: it raised the
    build error whose message is the fixed text "Unknown status.", after the
    query and the status line for [id] and nothing else; the done set and
    the failed list are as before the query.  The error itself does not name
    the identifier. *)
Theorem watch_unknown_status E ids n id rest s d :
  _watch_builds E ids n = (PQuery id rest, s) ->
  sigint E (ticks s) = false ->
  get_build_details E (round s) id = Report d ->
  output d = "ok" ->
  status d = "unknown" ->
  forall k, _watch_builds E ids (n + S k) =
    (PExit (Raised (Exn CoprBuildException "Unknown status.")),
     tick (emit [Queried id d; Notified (strftime E (ticks s)) "unknown" id]
             (set_prevstatus (<[id := Some "unknown"]> (prevstatus s)) s))).
Proof.
  intros Hrun Hs Hget Hok Hun k.
  pose proof (no_unknown_run E ids n) as Hinv. rewrite Hrun in Hinv.
  specialize (Hinv I id). cbn [snd] in Hinv.
  unfold _watch_builds in *.
  rewrite run_add, Hrun. change (S k) with (1 + k)%nat. rewrite run_add.
  change (run E 1 ?c) with (step E c).
  rewrite step_stmt by done. cbn [stmt]. unfold body. rewrite Hget.
  rewrite bool_decide_false by (intros H; by apply H).
  rewrite bool_decide_true by done.
  unfold raise_in_try, except_KeyboardInterrupt. cbn [exn_cls].
  rewrite run_exit. f_equal. f_equal.
  change (record_done id _ _) with (handled E id d s).
  assert (ledger s id ≠ Some (status d)) as Hch by (by rewrite Hun).
  apply state_eq.
  - by rewrite handled_prevstatus, Hun.
  - by rewrite handled_failed_ids, Hun.
  - by rewrite handled_watched.
  - by rewrite handled_done, Hun.
  - by rewrite handled_round.
  - by rewrite handled_ticks.
  - by rewrite handled_out, bool_decide_true, Hun.
Qed.

Lemma watch_unknown_status_witness :
  _watch_builds (env_const (ok "unknown")) [7] 3 =
    (PQuery 7 [], snd (_watch_builds (env_const (ok "unknown")) [7] 3)) /\
  forall k, result (_watch_builds (env_const (ok "unknown")) [7] (3 + S k)) =
            Some (Raised (Exn CoprBuildException "Unknown status.")).
Proof.
  assert (_watch_builds (env_const (ok "unknown")) [7] 3 =
            (PQuery 7 [], snd (_watch_builds (env_const (ok "unknown")) [7] 3)))
    as H1 by (vm_compute; reflexivity).
  split; [exact H1|]. intros k.
  rewrite (watch_unknown_status (env_const (ok "unknown")) [7] 3 7 [] _
             (ok "unknown") H1 eq_refl eq_refl eq_refl eq_refl k).
  reflexivity.
Defined.

(** C3 as stated fails: the error raised for an unknown status does not
    carry the identifier.  Watching build 7 with an unknown status raises an
    error whose message does not mention 7, and watching build 8 instead
    raises the very same error. *)
Lemma unknown_status_error_without_identifier :
  exists e,
    result (_watch_builds (env_const (ok "unknown")) [7] 4) = Some (Raised e) /\
    names e 7 = false /\
    result (_watch_builds (env_const (ok "unknown")) [8] 4) = Some (Raised e).
Proof.
  exists (Exn CoprBuildException "Unknown status."). vm_compute. done.
Qed.

(** ** C4: a failed query *)

(** C4, as amended.  When the query of [id] returns a report that is not
    marked ok, the watch is over at the next step and stays so: it raised the
    request error whose message names [id] and the error text of the report.
    When the query itself raises, the watch is over at the next step and
    stays so as well, and the exception leaves the call as the client raised
    it, with nothing added (an exception that is a KeyboardInterrupt is
    caught, and the call returns).  In both cases the trace ends with that
    query, so there was no retry and no further query. *)
Theorem watch_retrieval_error E ids n id rest s :
  _watch_builds E ids n = (PQuery id rest, s) ->
  sigint E (ticks s) = false ->
  (forall d, get_build_details E (round s) id = Report d -> output d ≠ "ok" ->
     let e := Exn CoprRequestException (errmsg (error d) id) in
     names e id = true /\
     mentions (error d) (exn_msg e) = true /\
     forall k, _watch_builds E ids (n + S k) =
               (PExit (Raised e), tick (emit [Queried id d] s))) /\
  (forall e, get_build_details E (round s) id = Failure e ->
     (exn_cls e ≠ KeyboardInterrupt -> except_KeyboardInterrupt e = Raised e) /\
     forall k, _watch_builds E ids (n + S k) =
               (PExit (except_KeyboardInterrupt e),
                tick (emit [Failed_query id e] s))).
Proof.
  intros Hrun Hs. split.
  - intros d Hget Hout e.
    split; [apply mentions_errmsg_id|]. split; [apply mentions_errmsg_detail|].
    intros k. unfold _watch_builds in *.
    rewrite run_add, Hrun. change (S k) with (1 + k)%nat. rewrite run_add.
    change (run E 1 ?c) with (step E c).
    rewrite step_stmt by done. cbn [stmt]. unfold body. rewrite Hget.
    rewrite bool_decide_true by done. apply run_exit.
  - intros e Hget. split.
    { unfold except_KeyboardInterrupt. by destruct (exn_cls e). }
    intros k. unfold _watch_builds in *.
    rewrite run_add, Hrun. change (S k) with (1 + k)%nat. rewrite run_add.
    change (run E 1 ?c) with (step E c).
    rewrite step_stmt by done. cbn [stmt]. unfold body. rewrite Hget.
    apply run_exit.
Qed.

Lemma watch_retrieval_error_witness :
  _watch_builds env_not_ok [7] 3 =
    (PQuery 7 [], snd (_watch_builds env_not_ok [7] 3)) /\
  (forall k,
     result (_watch_builds env_not_ok [7] (3 + S k)) =
     Some (Raised (Exn CoprRequestException
             "  Build 7: Unable to get build status: Build 7 does not exist"))) /\
  (forall k,
     result (_watch_builds (env_raises no_answer) [7] (3 + S k)) =
     Some (Raised no_answer)).
Proof.
  assert (_watch_builds env_not_ok [7] 3 =
          (PQuery 7 [], snd (_watch_builds env_not_ok [7] 3))) as H1
    by (vm_compute; reflexivity).
  assert (_watch_builds (env_raises no_answer) [7] 3 =
          (PQuery 7 [], snd (_watch_builds (env_raises no_answer) [7] 3))) as H2
    by (vm_compute; reflexivity).
  split; [exact H1|]. split; intros k.
  - destruct (watch_retrieval_error env_not_ok [7] 3 7 [] _ H1 eq_refl)
      as [Hreport _].
    destruct (Hreport _ eq_refl) as (_ & _ & Hrun).
    + vm_compute. discriminate.
    + rewrite Hrun. vm_compute. reflexivity.
  - destruct (watch_retrieval_error (env_raises no_answer) [7] 3 7 [] _ H2 eq_refl)
      as [_ Hraises].
    destruct (Hraises _ eq_refl) as [_ Hrun].
    rewrite Hrun. reflexivity.
Defined.

(** C4 as stated fails when the query itself fails: the exception of the
    client leaves the watch as it is, and carries the identifier only if the
    client put it there.  Watching build 7 with a client that gets no answer
    raises an error whose message does not mention 7, and watching build 8
    instead raises the very same error. *)
Lemma retrieval_error_without_identifier :
  exists e,
    result (_watch_builds (env_raises no_answer) [7] 4) = Some (Raised e) /\
    names e 7 = false /\
    result (_watch_builds (env_raises no_answer) [8] 4) = Some (Raised e).
Proof.
  exists no_answer. vm_compute. done.
Qed.

(** ** C5: interruption *)

(** C5.  When Ctrl-C arrives at a control point inside the try block (the
    test of the while loop, between two queries, during a query, the test
    after the for loop, the sleep, the test of the failed list), the call
    returns normally at once, whatever the failed list holds, and the state is
    the one at the interruption. *)
Theorem watch_interrupted E ids n p s :
  _watch_builds E ids n = (p, s) ->
  in_try p = true ->
  sigint E (ticks s) = true ->
  forall k, _watch_builds E ids (n + S k) =
            (PExit Returned, tick (emit [Interrupted] s)).
Proof.
  intros Hrun Hp Hs k. unfold _watch_builds in *.
  rewrite run_add, Hrun. change (S k) with (1 + k)%nat. rewrite run_add.
  change (run E 1 ?c) with (step E c).
  rewrite step_sigint by done. apply run_exit.
Qed.

Lemma watch_interrupted_witness :
  _watch_builds (env_ctrl_c 8) [1; 2] 8 =
    (PSleep, snd (_watch_builds (env_ctrl_c 8) [1; 2] 8)) /\
  failed_ids (snd (_watch_builds (env_ctrl_c 8) [1; 2] 8)) = [1] /\
  sigint (env_ctrl_c 8) (ticks (snd (_watch_builds (env_ctrl_c 8) [1; 2] 8))) = true /\
  forall k, result (_watch_builds (env_ctrl_c 8) [1; 2] (8 + S k)) = Some Returned.
Proof.
  assert (_watch_builds (env_ctrl_c 8) [1; 2] 8 =
            (PSleep, snd (_watch_builds (env_ctrl_c 8) [1; 2] 8))) as H1
    by (vm_compute; reflexivity).
  assert (sigint (env_ctrl_c 8)
            (ticks (snd (_watch_builds (env_ctrl_c 8) [1; 2] 8))) = true) as H2
    by (vm_compute; reflexivity).
  split; [exact H1|]. split; [vm_compute; reflexivity|]. split; [exact H2|].
  intros k.
  rewrite (watch_interrupted (env_ctrl_c 8) [1; 2] 8 PSleep _ H1 eq_refl H2 k).
  reflexivity.
Defined.

(** ** C6: duplicates *)




(** ** C7: the done set *)

(** C7.  If iterating over a set visits its members only, then at every step
    the done set is included in the watch set; it only grows from a step to a
    later one; and the events between the two steps hold no query of an
    identifier that was done at the first. *)
Theorem done_set_invariant E ids n k :
  iter_ok E ->
  let s := snd (_watch_builds E ids n) in
  let s' := snd (_watch_builds E ids (n + k)) in
  done s ⊆ watched s /\ done s ⊆ done s' /\
  exists evs, out s' = out s ++ evs /\
    forall id, id ∈ done s ->
      (forall d, Queried id d ∉ evs) /\ (forall e, Failed_query id e ∉ evs).
Proof.
  intros Hit s s'. split.
  - apply done_watched_run, Hit.
  - destruct (run_grows E ids n k) as [Hsub (evs & Hout & Hq)].
    split; [done|]. exists evs. split; [done|].
    intros id Hid. specialize (Hq id Hid). rewrite elem_of_queries in Hq.
    split; [intros d Hin|intros e Hin]; apply Hq; eauto.
Qed.

Lemma done_set_invariant_witness :
  iter_ok env_201_202 /\
  done (snd (_watch_builds env_201_202 [201; 202] 14)) ⊆
    done (snd (_watch_builds env_201_202 [201; 202] (14 + 3))) /\
  exists evs,
    out (snd (_watch_builds env_201_202 [201; 202] (14 + 3))) =
      out (snd (_watch_builds env_201_202 [201; 202] 14)) ++ evs /\
    forall id, id ∈ done (snd (_watch_builds env_201_202 [201; 202] 14)) ->
      (forall d, Queried id d ∉ evs) /\ (forall e, Failed_query id e ∉ evs).
Proof.
  assert (iter_ok env_201_202) as H by (intros X x; apply sorted_iter_ok).
  split; [exact H|].
  exact (proj2 (done_set_invariant env_201_202 [201; 202] 14 3 H)).
Defined.

(** ** C8: notifications *)

(** C8.  At every step and for every identifier, the statuses notified are
    the statuses observed in ok answers with each run of equal neighbours
    shrunk to one, so there are as many notifications as runs, and the ledger
    holds the last observed status.  A query answered ok appends the query to
    the trace, followed by a notification exactly when the status differs
    from the ledger's, and leaves the new status in the ledger. *)
Theorem notifications_follow_changes E ids n id :
  let s := snd (_watch_builds E ids n) in
  (notified id (out s) = compress (observed id (out s)) /\
   length (notified id (out s)) = length (compress (observed id (out s))) /\
   ledger s id = last (observed id (out s))) /\
  (forall rest,
     fst (_watch_builds E ids n) = PQuery id rest ->
     sigint E (ticks s) = false ->
     forall d, get_build_details E (round s) id = Report d ->
     output d = "ok" ->
     let s' := snd (_watch_builds E ids (S n)) in
     out s' = out s ++ Queried id d ::
       (if bool_decide (ledger s id ≠ Some (status d))
        then [Notified (strftime E (ticks s)) (status d) id] else []) /\
     ledger s' id = Some (status d)).
Proof.
  intros s. split.
  - destruct (ledger_follows_run E ids n id) as [Hn Hl]. fold s in Hn, Hl.
    by rewrite Hn.
  - intros rest Hpc Hs d Hget Hok s'. subst s'. unfold _watch_builds in *.
    rewrite run_S. destruct (run E n (start ids)) as [p s0] eqn:Hrun.
    cbn [fst snd] in *. subst p s.
    rewrite step_stmt by done. cbn [stmt]. unfold body. rewrite Hget.
    rewrite bool_decide_false by (intros H; by apply H).
    change (record_done id _ _) with (handled E id d s0).
    case_bool_decide; unfold raise_in_try; cbn [snd];
      change (ledger (tick ?s) id) with (ledger s id); cbn [out tick];
      rewrite handled_out, handled_ledger;
      by rewrite (bool_decide_true (id = id)).
Qed.

Lemma notifications_follow_changes_witness :
  fst (_watch_builds env_101 [101] 15) = PQuery 101 [] /\
  notified 101 (out (snd (_watch_builds env_101 [101] 15))) = ["pending"] /\
  observed 101 (out (snd (_watch_builds env_101 [101] 15))) = ["pending"; "pending"] /\
  notified 101 (out (snd (_watch_builds env_101 [101] 16))) =
    ["pending"; "succeeded"] /\
  ledger (snd (_watch_builds env_101 [101] 16)) 101 = Some "succeeded".
Proof.
  assert (fst (_watch_builds env_101 [101] 15) = PQuery 101 []) as H1
    by (vm_compute; reflexivity).
  destruct (notifications_follow_changes env_101 [101] 15 101)
    as ((Hn & _ & _) & Hstep).
  destruct (Hstep [] H1 eq_refl (ok "succeeded") eq_refl eq_refl) as [Hout Hl].
  split; [exact H1|]. split; [rewrite Hn; vm_compute; reflexivity|].
  split; [vm_compute; reflexivity|]. split; [|exact Hl].
  rewrite Hout. vm_compute. reflexivity.
Defined.

(** ** C9: the exit status *)

Section MainHandlers.
Variable issubclass : exn_class -> exn_class -> bool.
Hypothesis issubclass_refl : forall c, issubclass c c = true.
Hypothesis build_not_interrupt :
  issubclass CoprBuildException KeyboardInterrupt = false.
Hypothesis request_not_interrupt :
  issubclass CoprRequestException KeyboardInterrupt = false.
Hypothesis request_not_build :
  issubclass CoprRequestException CoprBuildException = false.
Hypothesis request_not_unknown_response :
  issubclass CoprRequestException CoprUnknownResponseException = false.

Lemma main_except_build msg :
  main_except issubclass (Exn CoprBuildException msg) =
    Exit (nl +:+ "Build error: " +:+ msg +:+ nl) 4.
Proof.
  unfold main_except, handlers. cbn [dispatch exn_cls exn_msg].
  by rewrite build_not_interrupt, issubclass_refl.
Qed.

Lemma main_except_request msg :
  main_except issubclass (Exn CoprRequestException msg) =
    Exit ((nl +:+ "Something went wrong:") +:+ (nl +:+ "Error: " +:+ msg +:+ nl)) 1.
Proof.
  unfold main_except, handlers. cbn [dispatch exn_cls exn_msg].
  by rewrite request_not_interrupt, request_not_build,
    request_not_unknown_response, issubclass_refl.
Qed.

(** C9.  In a class hierarchy where the build and request errors are not
    keyboard interrupts and a request error is neither a build error nor an
    unknown-response error, [main] writes a message and exits with status 1
    for the retrieval error and with status 4 for the unknown-status error and
    for the partial-failure error: all are non-zero, the first differs from
    the other two, and the message of the partial failure mentions every
    failed identifier. *)
Theorem main_watch_errors err id failed :
  let retrieval := main_except issubclass (Exn CoprRequestException (errmsg err id)) in
  let unknown := main_except issubclass (Exn CoprBuildException "Unknown status.") in
  let partial := main_except issubclass (Exn CoprBuildException (failed_msg failed)) in
  (retrieval =
     Exit ((nl +:+ "Something went wrong:") +:+
           (nl +:+ "Error: " +:+ errmsg err id +:+ nl)) 1 /\
   unknown = Exit (nl +:+ "Build error: " +:+ "Unknown status." +:+ nl) 4 /\
   partial = Exit (nl +:+ "Build error: " +:+ failed_msg failed +:+ nl) 4) /\
  (exit_status retrieval ≠ Some 0 /\ exit_status unknown ≠ Some 0 /\
   exit_status retrieval ≠ exit_status unknown) /\
  (exit_status partial ≠ Some 0 /\ exit_status partial ≠ exit_status retrieval) /\
  (forall x, x ∈ failed -> mentions (str x) (stderr_text partial) = true).
Proof.
  intros retrieval unknown partial. subst retrieval unknown partial.
  rewrite !main_except_build, main_except_request. cbn [exit_status stderr_text].
  repeat split; try done.
  intros x Hx. apply mentions_app_r. apply mentions_app_r.
  apply mentions_app_l. by apply mentions_failed_msg.
Qed.
End MainHandlers.

Lemma main_watch_errors_witness :
  (forall c, flat_issubclass c c = true) /\
  exit_status (main_except flat_issubclass
                 (Exn CoprRequestException (errmsg "timeout" 7))) = Some 1 /\
  exit_status (main_except flat_issubclass
                 (Exn CoprBuildException "Unknown status.")) = Some 4 /\
  main_except flat_issubclass (Exn CoprBuildException (failed_msg [201; 202])) =
    Exit (nl +:+ "Build error: Build(s) 201, 202 failed." +:+ nl) 4.
Proof.
  assert (forall c, flat_issubclass c c = true) as H by (intros []; reflexivity).
  destruct (main_watch_errors flat_issubclass H eq_refl eq_refl eq_refl eq_refl
              "timeout" 7 [201; 202]) as ((Hr & Hu & Hp) & _).
  split; [exact H|]. split; [by rewrite Hr|]. split; [by rewrite Hu|].
  rewrite Hp. vm_compute. reflexivity.
Defined.

(** ** C10: the empty input *)

(** C10.  Watching the empty sequence is over after three steps (the start,
    the test of the while loop, the test of the failed list): the call
    returns, having made no query, printed no status line and never slept;
    the watch set, the done set and the failed list are empty.  Assumed: no
    Ctrl-C arrives before the try block is entered. *)
Theorem watch_empty E k :
  sigint E 0 = false ->
  exists s, _watch_builds E [] (3 + k) = (PExit Returned, s) /\
    queries (out s) = [] /\ (forall id, notified id (out s) = []) /\
    sleeps (out s) = 0%nat /\ failed_ids s = [] /\ watched s = ∅ /\ done s = ∅.
Proof.
  intros H0. unfold _watch_builds. rewrite run_add.
  unfold start. change (run E 3 ?c) with (step E (step E (step E c))).
  rewrite step_start by exact H0. cbn [round ticks out app list_to_set foldr].
  destruct (sigint E 1) eqn:H1.
  - rewrite step_sigint by done. rewrite step_exit, run_exit.
    eexists; split; [reflexivity|]. cbn. done.
  - rewrite step_stmt by done. cbn [stmt watched done tick].
    rewrite bool_decide_false by (intros ?; done).
    destruct (sigint E 2) eqn:H2.
    + rewrite step_sigint by done. rewrite run_exit.
      eexists; split; [reflexivity|]. cbn. done.
    + rewrite step_stmt by done. cbn. rewrite run_exit.
      eexists; split; [reflexivity|]. cbn. done.
Qed.

Lemma watch_empty_witness :
  sigint (env_const (ok "pending")) 0 = false /\
  exists s, _watch_builds (env_const (ok "pending")) [] (3 + 0) = (PExit Returned, s) /\
    out s = [Banner].
Proof.
  split; [reflexivity|].
  destruct (watch_empty (env_const (ok "pending")) 0 eq_refl) as (s & Hrun & _).
  exists s. split; [exact Hrun|].
  assert (s = snd (_watch_builds (env_const (ok "pending")) [] (3 + 0))) as ->
    by (by rewrite Hrun).
  vm_compute. reflexivity.
Defined.

(** * The rest of the command-line client *)

(** ** The regular expressions of [parse_name] and [parse_chroot_path] *)

Lemma span_app cls s : fst (span cls s) +:+ snd (span cls s) = s.
Proof.
  induction s as [|c s IH]; [done|]. cbn [span].
  destruct (cls c); [|done]. cbn [fst snd].
  change (String c ?a +:+ ?b) with (String c (a +:+ b)). by rewrite IH.
Qed.

Lemma span_stops cls s : stops cls (snd (span cls s)).
Proof.
  induction s as [|c s IH]; [done|]. cbn [span].
  destruct (cls c) eqn:Hc; [done|]. cbn [snd stops]. done.
Qed.

Lemma re_star_shape cls s :
  exists tl, re_star cls s = span cls s :: tl /\
             Forall (fun mr => goes_on cls (snd mr)) tl.
Proof.
  induction s as [|c s (tl & Heq & Htl)].
  - exists []. by split.
  - cbn [re_star span]. destruct (cls c) eqn:Hc.
    + rewrite Heq. cbn [map app].
      exists (map (fun mr => (String c (fst mr), snd mr)) tl ++ [(EmptyString, String c s)]).
      split; [done|]. apply Forall_app. split.
      * apply Forall_fmap. eapply Forall_impl; [exact Htl|]. by intros [m r].
      * apply Forall_singleton. done.
    + exists []. by split.
Qed.

Lemma re_plus_shape cls s :
  goes_on cls s ->
  exists tl, re_plus cls s = span cls s :: tl /\
             Forall (fun mr => goes_on cls (snd mr)) tl.
Proof.
  destruct s as [|c s]; [done|]. intros Hc. cbn [goes_on] in Hc.
  cbn [re_plus span]. rewrite Hc.
  destruct (re_star_shape cls s) as (tl & Heq & Htl). rewrite Heq.
  exists (map (fun mr => (String c (fst mr), snd mr)) tl). split; [done|].
  apply Forall_fmap. eapply Forall_impl; [exact Htl|]. by intros [m r].
Qed.

Lemma re_plus_stops cls s : stops cls s -> re_plus cls s = [].
Proof. destruct s as [|c s]; [done|]. intros Hc. cbn in *. by rewrite Hc. Qed.

Lemma goes_on_or_stops cls s : goes_on cls s \/ stops cls s.
Proof. destruct s as [|c s]; [by right|]. cbn. destruct (cls c); auto. Qed.

(** After a run of non-slash characters that could go on, no slash follows:
    the shorter runs that backtracking tries lead nowhere. *)
Lemma re_lit_slash_goes_on {B} (g : unit -> matcher B) r :
  goes_on not_slash r -> re_seq (re_lit "/") g r = [].
Proof.
  destruct r as [|c r]; [done|]. cbn. unfold re_seq, re_lit, not_slash.
  by destruct (Ascii.eqb c "/").
Qed.

Lemma flat_map_dead {A B} (K : A * string -> list B) (tl : list (A * string)) :
  Forall (fun mr => goes_on not_slash (snd mr)) tl ->
  (forall mr, goes_on not_slash (snd mr) -> K mr = []) ->
  flat_map K tl = [].
Proof.
  intros Htl HK. induction Htl as [|mr tl Hr _ IH]; [done|].
  cbn [flat_map]. by rewrite IH, HK.
Qed.

Lemma not_slash_false c : not_slash c = false -> c = "/"%char.
Proof.
  unfold not_slash. destruct (Ascii.eqb_spec c "/"); [done|]. done.
Qed.

Lemma span_goes_on cls s :
  goes_on cls s -> exists c m, fst (span cls s) = String c m.
Proof.
  destruct s as [|c s]; [done|]. cbn. intros ->. cbn. eauto.
Qed.

Lemma span_stops_nil cls s : stops cls s -> span cls s = (EmptyString, s).
Proof. destruct s as [|c s]; [done|]. cbn. by intros ->. Qed.

(** The last group [(. * )] and the end of the pattern. *)
Lemma re_rest_head {A} (f : string -> A) r :
  head (re_seq (re_star not_newline) (fun g => re_ret (f g)) r) =
    Some (f (fst (span not_newline r)), snd (span not_newline r)).
Proof.
  unfold re_seq. destruct (re_star_shape not_newline r) as (tl & -> & _).
  by destruct (span not_newline r).
Qed.

(** A segment, a slash and the last group: [ ([^/]+) / (. * ) ]. *)
Lemma re_segment_rest_head {A} (f : string -> string -> A) s :
  head (re_seq (re_plus not_slash) (fun g =>
        re_seq (re_lit "/") (fun _ =>
        re_seq (re_star not_newline) (fun g' => re_ret (f g g')))) s) =
    match span not_slash s with
    | (String c o, String _ r) =>
        Some (f (String c o) (fst (span not_newline r)), snd (span not_newline r))
    | _ => None
    end.
Proof.
  unfold re_seq at 1.
  destruct (goes_on_or_stops not_slash s) as [Hgo|Hstop].
  - destruct (re_plus_shape not_slash s Hgo) as (tl & -> & Htl).
    cbn [flat_map]. rewrite (flat_map_dead _ tl Htl), app_nil_r
      by (intros mr Hmr; by apply re_lit_slash_goes_on).
    destruct (span_goes_on not_slash s Hgo) as (c & o & Ho).
    pose proof (span_stops not_slash s) as Hr.
    destruct (span not_slash s) as [m r]. cbn [fst snd] in *. subst m.
    destruct r as [|c' r]; [done|]. cbn [stops] in Hr.
    apply not_slash_false in Hr as ->.
    unfold re_seq at 1. cbn [re_lit flat_map fst snd].
    change (Ascii.eqb "/" "/") with true. cbn [flat_map fst snd].
    rewrite app_nil_r. apply (re_rest_head (f (String c o))).
  - rewrite re_plus_stops by done. rewrite span_stops_nil by done. done.
Qed.

Lemma re_name_head s :
  head (re_name s) =
    match span not_slash s with
    | (String c o, String _ r) =>
        Some ((String c o, fst (span not_newline r)), snd (span not_newline r))
    | _ => None
    end.
Proof. apply (re_segment_rest_head pair). Qed.

(** [parse_name] without the regular expression: the text before the first
    slash, when there is one and it is not empty, and the text between that
    slash and the end of the line. *)
Lemma parse_name_span name :
  parse_name name =
    match span not_slash name with
    | (String c o, String _ r) => (Some (String c o), fst (span not_newline r))
    | _ => (None, name)
    end.
Proof.
  unfold parse_name, re_match. rewrite re_name_head.
  destruct (span not_slash name) as [[|c o] [|c' r]]; done.
Qed.

(** The optional group [ (([^/]+)/)? ] has at most one way to take part. *)
Lemma re_owner_list s :
  re_seq (re_plus not_slash) (fun g2 =>
    re_seq (re_lit "/") (fun _ => re_ret g2)) s =
    match span not_slash s with
    | (String c o, String _ r) => [(String c o, r)]
    | _ => []
    end.
Proof.
  unfold re_seq at 1.
  destruct (goes_on_or_stops not_slash s) as [Hgo|Hstop].
  - destruct (re_plus_shape not_slash s Hgo) as (tl & -> & Htl).
    cbn [flat_map]. rewrite (flat_map_dead _ tl Htl), app_nil_r
      by (intros mr Hmr; by apply re_lit_slash_goes_on).
    destruct (span_goes_on not_slash s Hgo) as (c & o & Ho).
    pose proof (span_stops not_slash s) as Hr.
    destruct (span not_slash s) as [m r]. cbn [fst snd] in *. subst m.
    destruct r as [|c' r]; [done|]. cbn [stops] in Hr.
    apply not_slash_false in Hr as ->. done.
  - rewrite re_plus_stops by done. rewrite span_stops_nil by done. done.
Qed.

Lemma head_app_l {A} (l1 l2 : list A) x : head l1 = Some x -> head (l1 ++ l2) = Some x.
Proof. by destruct l1. Qed.

Lemma head_None {A} (l : list A) : head l = None -> l = [].
Proof. by destruct l. Qed.

(** [parse_chroot_path] without the regular expression. *)
Lemma parse_chroot_path_span path :
  parse_chroot_path path =
    match span not_slash path with
    | (String c o, String _ r1) =>
        match span not_slash r1 with
        | (String c2 p, String _ r2) =>
            Some (Some (String c o), String c2 p, fst (span not_newline r2))
        | _ => Some (None, String c o, fst (span not_newline r1))
        end
    | _ => None
    end.
Proof.
  unfold parse_chroot_path, re_match, re_chroot_path.
  unfold re_seq at 1. unfold re_opt. rewrite re_owner_list.
  rewrite flat_map_app. cbn [flat_map fst snd]. rewrite app_nil_r.
  pose proof (re_segment_rest_head (fun g3 g4 => (@None string, g3, g4)) path)
    as Hwithout.
  destruct (span not_slash path) as [[|c o] [|c' r1]] eqn:Hspan;
    cbn [map flat_map app] in *; try by rewrite Hwithout.
  rewrite app_nil_r.
  pose proof (re_segment_rest_head
                (fun g3 g4 => (Some (String c o), g3, g4)) r1) as Hwith.
  cbn [fst snd].
  destruct (span not_slash r1) as [[|c2 p] [|c3 r2]] eqn:Hspan1;
    try (apply head_None in Hwith; rewrite Hwith; cbn [app]; by rewrite Hwithout).
  by rewrite (head_app_l _ _ _ Hwith).
Qed.

(** ** Texts with and without a given character *)

Lemma span_without c s :
  occurs c s = false -> span (fun x => negb (Ascii.eqb x c)) s = (s, EmptyString).
Proof.
  induction s as [|x s IH]; [done|]. cbn [occurs span].
  intros [Hx Hs]%orb_false_iff. rewrite Hx. cbn [negb]. by rewrite IH.
Qed.

Lemma span_until c o r :
  occurs c o = false -> stops (fun x => negb (Ascii.eqb x c)) r ->
  span (fun x => negb (Ascii.eqb x c)) (o +:+ r) = (o, r).
Proof.
  intros Ho Hr. induction o as [|x o IH].
  - by apply span_stops_nil.
  - cbn [occurs] in Ho. apply orb_false_iff in Ho as [Hx Ho].
    change (String x o +:+ r) with (String x (o +:+ r)). cbn [span].
    rewrite Hx. cbn [negb]. by rewrite IH.
Qed.

Lemma occurs_span c s :
  occurs c (fst (span (fun x => negb (Ascii.eqb x c)) s)) = false.
Proof.
  induction s as [|x s IH]; [done|]. cbn [span].
  destruct (Ascii.eqb x c) eqn:Hx; [done|]. cbn [negb fst occurs].
  by rewrite Hx, IH.
Qed.

Lemma append_nil_r s : s +:+ EmptyString = s.
Proof.
  induction s as [|c s IH]; [done|].
  change (String c s +:+ EmptyString) with (String c (s +:+ EmptyString)).
  by rewrite IH.
Qed.

(** ** [parse_name] *)

(** X1.  [parse_name] finds no owner, and gives the name back unchanged,
    exactly when the name holds no slash or begins with one. *)
Theorem parse_name_no_owner name :
  parse_name name = (None, name) <->
  occurs "/" name = false \/ exists r, name = String "/" r.
Proof.
  rewrite parse_name_span. split.
  - pose proof (span_app not_slash name) as Happ.
    pose proof (span_stops not_slash name) as Hstop.
    destruct (span not_slash name) as [[|c o] [|c' r]] eqn:Hspan;
      cbn [fst snd] in *; try done; intros _.
    + left. by subst.
    + right. apply not_slash_false in Hstop as ->. exists r. by subst.
    + left. rewrite append_nil_r in Happ.
      pose proof (occurs_span "/" name) as Ho.
      change (fun x => negb (Ascii.eqb x "/")) with not_slash in Ho.
      rewrite Hspan in Ho. cbn [fst] in Ho. by rewrite <- Happ.
  - intros [Hno|[r ->]].
    + change not_slash with (fun x => negb (Ascii.eqb x "/")).
      rewrite span_without by done. by destruct name.
    + done.
Qed.

Lemma parse_name_no_owner_witness :
  parse_name "project" = (None, "project") /\
  (occurs "/" "/project" = false \/ exists r, "/project" = String "/" r).
Proof.
  split.
  - apply parse_name_no_owner. left. reflexivity.
  - apply (proj1 (parse_name_no_owner "/project")). reflexivity.
Defined.

(** X2.  An owner that is not empty and holds no slash, a slash and a project
    name on one line are parsed back into that owner and that project name,
    slashes of the project name included. *)
Theorem parse_name_owner_project owner project :
  owner ≠ EmptyString -> occurs "/" owner = false ->
  occurs newline project = false ->
  parse_name (owner +:+ String "/" project) = (Some owner, project).
Proof.
  intros Hne Ho Hp. rewrite parse_name_span.
  change not_slash with (fun x => negb (Ascii.eqb x "/")).
  rewrite span_until by done.
  destruct owner as [|c o]; [done|].
  change not_newline with (fun x => negb (Ascii.eqb x newline)).
  by rewrite span_without.
Qed.

Lemma parse_name_owner_project_witness :
  parse_name ("owner" +:+ String "/" "project/sub") = (Some "owner", "project/sub").
Proof. apply parse_name_owner_project; [discriminate|reflexivity|reflexivity]. Defined.

(** X3.  When [parse_name] finds an owner, the owner is not empty and holds no
    slash, the project name holds no line break, and the text parsed is the
    owner, a slash, the project name and then nothing or a line break with
    what follows it, which is dropped. *)
Theorem parse_name_owner_inv name owner project :
  parse_name name = (Some owner, project) ->
  owner ≠ EmptyString /\ occurs "/" owner = false /\
  occurs newline project = false /\
  exists rest, name = owner +:+ String "/" (project +:+ rest) /\
               (rest = EmptyString \/ exists r, rest = String newline r).
Proof.
  rewrite parse_name_span.
  pose proof (span_app not_slash name) as Happ.
  pose proof (span_stops not_slash name) as Hstop.
  pose proof (occurs_span "/" name) as Ho.
  change (fun x => negb (Ascii.eqb x "/")) with not_slash in Ho.
  destruct (span not_slash name) as [[|c o] [|c' r]]; cbn [fst snd] in *;
    try done.
  intros [= <- <-]. apply not_slash_false in Hstop as ->.
  split; [done|]. split; [done|]. split; [apply occurs_span|].
  exists (snd (span not_newline r)). split.
  - by rewrite span_app.
  - pose proof (span_stops not_newline r) as Hnl.
    destruct (snd (span not_newline r)) as [|x rest]; [by left|right].
    cbn [stops] in Hnl. unfold not_newline in Hnl.
    destruct (Ascii.eqb_spec x newline) as [->|]; [eauto|done].
Qed.

Lemma parse_name_owner_inv_witness :
  parse_name ("@group/project" +:+ String newline "rest") = (Some "@group", "project") /\
  occurs "/" "@group" = false /\
  exists rest, "@group/project" +:+ String newline "rest" =
                 "@group" +:+ String "/" ("project" +:+ rest) /\
               (rest = EmptyString \/ exists r, rest = String newline r).
Proof.
  assert (parse_name ("@group/project" +:+ String newline "rest") =
            (Some "@group", "project")) as H by reflexivity.
  destruct (parse_name_owner_inv _ _ _ H) as (_ & Ho & _ & Hrest).
  split; [exact H|]. split; [exact Ho|exact Hrest].
Defined.

(** ** [parse_chroot_path] *)

Lemma occurs_no_slash_span name c o :
  span not_slash name = (String c o, EmptyString) -> occurs "/" name = false.
Proof.
  intros Hspan. pose proof (span_app not_slash name) as Happ.
  pose proof (occurs_span "/" name) as Ho.
  change (fun x => negb (Ascii.eqb x "/")) with not_slash in Ho.
  rewrite Hspan in Happ, Ho. cbn [fst snd] in *.
  rewrite append_nil_r in Happ. by rewrite <- Happ.
Qed.

(** X4.  [parse_chroot_path] returns [None] exactly when the path holds no
    slash or begins with one. *)
Theorem parse_chroot_path_none path :
  parse_chroot_path path = None <->
  occurs "/" path = false \/ exists r, path = String "/" r.
Proof.
  rewrite parse_chroot_path_span. split.
  - pose proof (span_app not_slash path) as Happ.
    pose proof (span_stops not_slash path) as Hstop.
    destruct (span not_slash path) as [[|c o] [|c' r]] eqn:Hspan;
      cbn [fst snd] in *.
    + intros _. left. by subst.
    + intros _. right. apply not_slash_false in Hstop as ->. exists r. by subst.
    + intros _. left. by apply (occurs_no_slash_span path c o).
    + by destruct (span not_slash r) as [[|c2 p] [|c3 r2]].
  - intros [Hno|[r ->]].
    + change not_slash with (fun x => negb (Ascii.eqb x "/")).
      rewrite span_without by done. by destruct path.
    + done.
Qed.

Lemma parse_chroot_path_none_witness :
  parse_chroot_path "fedora-rawhide-x86_64" = None.
Proof. apply parse_chroot_path_none. left. reflexivity. Defined.

(** X5.  Owner, project and chroot joined by slashes are parsed back into the
    three of them, when owner and project are not empty and hold no slash and
    the chroot holds no line break. *)
Theorem parse_chroot_path_owner owner project chroot :
  owner ≠ EmptyString -> occurs "/" owner = false ->
  project ≠ EmptyString -> occurs "/" project = false ->
  occurs newline chroot = false ->
  parse_chroot_path (owner +:+ String "/" (project +:+ String "/" chroot)) =
    Some (Some owner, project, chroot).
Proof.
  intros Hone Ho Hpne Hp Hc. rewrite parse_chroot_path_span.
  change not_slash with (fun x => negb (Ascii.eqb x "/")).
  rewrite span_until by done. destruct owner as [|c o]; [done|].
  rewrite span_until by done. destruct project as [|c2 p]; [done|].
  change not_newline with (fun x => negb (Ascii.eqb x newline)).
  by rewrite span_without.
Qed.

Lemma parse_chroot_path_owner_witness :
  parse_chroot_path ("owner" +:+ String "/" ("project" +:+ String "/" "fedora-rawhide-x86_64")) =
    Some (Some "owner", "project", "fedora-rawhide-x86_64").
Proof.
  apply parse_chroot_path_owner; first [discriminate|reflexivity].
Defined.

(** X6.  A project and a chroot joined by a slash are parsed into no owner,
    that project and that chroot, when the chroot holds no slash or begins
    with one (so that it cannot be read as project and chroot itself). *)
Theorem parse_chroot_path_no_owner project chroot :
  project ≠ EmptyString -> occurs "/" project = false ->
  occurs newline chroot = false ->
  (occurs "/" chroot = false \/ exists r, chroot = String "/" r) ->
  parse_chroot_path (project +:+ String "/" chroot) =
    Some (None, project, chroot).
Proof.
  intros Hpne Hp Hc Hshape. rewrite parse_chroot_path_span.
  change not_slash with (fun x => negb (Ascii.eqb x "/")).
  rewrite span_until by done. destruct project as [|c p]; [done|].
  change not_newline with (fun x => negb (Ascii.eqb x newline)).
  rewrite (span_without newline) by done.
  destruct Hshape as [Hno|[r ->]].
  - rewrite span_without by done. by destruct chroot.
  - done.
Qed.

Lemma parse_chroot_path_no_owner_witness :
  parse_chroot_path ("project" +:+ String "/" "fedora-rawhide-x86_64") =
    Some (None, "project", "fedora-rawhide-x86_64").
Proof.
  apply parse_chroot_path_no_owner; first [discriminate|reflexivity|idtac].
  left. reflexivity.
Defined.

(** X7.  Whatever [parse_chroot_path] returns, the project is not empty and
    holds no slash, neither does the owner when there is one, the chroot holds
    no line break, and the path is owner (if any), project and chroot joined
    by slashes, followed by nothing or by a line break and what follows it. *)
Theorem parse_chroot_path_inv path owner project chroot :
  parse_chroot_path path = Some (owner, project, chroot) ->
  project ≠ EmptyString /\ occurs "/" project = false /\
  occurs newline chroot = false /\
  exists rest,
    (rest = EmptyString \/ exists r, rest = String newline r) /\
    match owner with
    | Some o =>
        o ≠ EmptyString /\ occurs "/" o = false /\
        path = o +:+ String "/" (project +:+ String "/" (chroot +:+ rest))
    | None => path = project +:+ String "/" (chroot +:+ rest)
    end.
Proof.
  assert (forall r, exists rest,
            (rest = EmptyString \/ exists r', rest = String newline r') /\
            r = fst (span not_newline r) +:+ rest) as Hline.
  { intros r. exists (snd (span not_newline r)). split; [|by rewrite span_app].
    pose proof (span_stops not_newline r) as Hnl.
    destruct (snd (span not_newline r)) as [|x rest]; [by left|right].
    cbn [stops] in Hnl. unfold not_newline in Hnl.
    destruct (Ascii.eqb_spec x newline) as [->|]; [eauto|done]. }
  rewrite parse_chroot_path_span.
  pose proof (span_app not_slash path) as Happ.
  pose proof (span_stops not_slash path) as Hstop.
  pose proof (occurs_span "/" path) as Ho.
  change (fun x => negb (Ascii.eqb x "/")) with not_slash in Ho.
  destruct (span not_slash path) as [[|c o] [|c' r1]]; cbn [fst snd] in *;
    try done.
  apply not_slash_false in Hstop as ->.
  pose proof (span_app not_slash r1) as Happ1.
  pose proof (span_stops not_slash r1) as Hstop1.
  pose proof (occurs_span "/" r1) as Ho1.
  change (fun x => negb (Ascii.eqb x "/")) with not_slash in Ho1.
  destruct (span not_slash r1) as [[|c2 p] [|c3 r2]]; cbn [fst snd] in *;
    intros [= <- <- <-];
    try (split; [done|]; split; [done|]; split; [apply occurs_span|];
         destruct (Hline r1) as (rest & Hrest & Hr1); exists rest;
         split; [done|]; by rewrite <- Hr1).
  apply not_slash_false in Hstop1 as ->.
  split; [done|]. split; [done|]. split; [apply occurs_span|].
  destruct (Hline r2) as (rest & Hrest & Hr2). exists rest.
  split; [done|]. split; [done|]. split; [done|].
  by rewrite <- Hr2, Happ1.
Qed.

Lemma parse_chroot_path_inv_witness :
  parse_chroot_path "a//b" = Some (None, "a", "/b") /\
  exists rest, (rest = EmptyString \/ exists r, rest = String newline r) /\
               "a//b" = "a" +:+ String "/" ("/b" +:+ rest).
Proof.
  assert (parse_chroot_path "a//b" = Some (None, "a", "/b")) as H by reflexivity.
  destruct (parse_chroot_path_inv _ _ _ _ H) as (_ & _ & _ & Hrest).
  split; [exact H|exact Hrest].
Defined.

(** ** Actions *)

Lemma requests_app effs effs' : requests (effs ++ effs') = requests effs ++ requests effs'.
Proof.
  induction effs as [|[] effs IH]; simpl; by rewrite ?IH.
Qed.

Lemma requests_Stdout l : requests (map Stdout l) = [].
Proof. by induction l. Qed.

Lemma requests_Watching l : requests (map Watching l) = [].
Proof. by induction l. Qed.

Lemma watched_events_app effs effs' :
  watched_events (effs ++ effs') = watched_events effs ++ watched_events effs'.
Proof.
  induction effs as [|[] effs IH]; simpl; by rewrite ?IH.
Qed.

Lemma watched_events_Watching l : watched_events (map Watching l) = l.
Proof. induction l; cbn; by f_equal. Qed.

(** ** [action_list] and [check_username_presence] *)

(** X8.  [action_list] behind its guard: with no user name on the command
    line and none usable in the configuration it asks the service nothing and
    exits with status 6; otherwise it makes exactly one request, for the user
    name of the command line when that is a non-empty text and for the one of
    the configuration when not, and returns.  The name asked for is [None]
    only if the command line gave the empty text. *)
Theorem action_list_username get_projects_list self args_username :
  (args_username = None ->
   no_config self = true \/ username self = None ->
   requests (fst (action_list get_projects_list self args_username)) = [] /\
   snd (action_list get_projects_list self args_username) =
     Some (Raise (SystemExit 6))) /\
  (args_username ≠ None \/ (no_config self = false /\ username self ≠ None) ->
   requests (fst (action_list get_projects_list self args_username)) =
     [Get_projects_list (py_or args_username (username self))] /\
   snd (action_list get_projects_list self args_username) = Some Return /\
   (args_username ≠ Some EmptyString ->
    py_or args_username (username self) ≠ None)).
Proof.
  unfold action_list, check_username_presence. split.
  - intros -> [Hno|Hu].
    + rewrite Hno. done.
    + rewrite Hu. by destruct (no_config self).
  - intros Hcond.
    assert (no_config self && is_None args_username = false) as ->.
    { destruct Hcond as [Ha|[-> _]]; [|done].
      destruct args_username; [|done]. apply andb_false_r. }
    assert (is_None args_username && is_None (username self) = false) as ->.
    { destruct Hcond as [Ha|[_ Hu]].
      - by destruct args_username.
      - destruct (username self); [|done]. apply andb_false_r. }
    unfold action_list_body. split; [|split].
    + case_bool_decide; [|destruct (projects_list _) eqn:Hl];
        cbn [fst]; rewrite ?requests_app, ?requests_Stdout; done.
    + case_bool_decide; [done|]. by destruct (projects_list _).
    + intros Hne. destruct args_username as [[|c u]|]; [done|done|].
      destruct Hcond as [|[_ Hu]]; [done|]. by destruct (username self).
Qed.

Lemma action_list_username_witness :
  snd (action_list no_projects (Client true None) None) = Some (Raise (SystemExit 6)) /\
  requests (fst (action_list no_projects (Client false (Some "me")) None)) =
    [Get_projects_list (Some "me")] /\
  requests (fst (action_list no_projects (Client true None) (Some "you"))) =
    [Get_projects_list (Some "you")].
Proof.
  split; [|split].
  - apply (proj1 (action_list_username no_projects (Client true None) None));
      [reflexivity|left; reflexivity].
  - apply (proj2 (action_list_username no_projects (Client false (Some "me")) None)).
    right. split; [reflexivity|discriminate].
  - apply (proj2 (action_list_username no_projects (Client true None) (Some "you"))).
    left. discriminate.
Defined.

(** ** [action_get_chroot] and [action_edit_chroot] *)

(** X9.  A chroot path with no slash, or beginning with one, makes
    [action_get_chroot] and (with a configuration) [action_edit_chroot] raise
    [TypeError] before any request, and [main] has no clause for it. *)
Theorem chroot_path_without_owner_and_project dumps message self issubclass coprchroot :
  occurs "/" coprchroot = false \/ (exists r, coprchroot = String "/" r) ->
  action_get_chroot dumps coprchroot = ([], Some (Raise TypeError)) /\
  (no_config self = false ->
   action_edit_chroot message self coprchroot = ([], Some (Raise TypeError))) /\
  main_action issubclass (Raise TypeError) = Traceback TypeError.
Proof.
  intros Hshape.
  assert (parse_chroot_path coprchroot = None) as Hnone.
  { rewrite parse_chroot_path_span. destruct Hshape as [Hno|[r ->]]; [|done].
    change not_slash with (fun x => negb (Ascii.eqb x "/")).
    rewrite span_without by done. by destruct coprchroot. }
  split; [|split; [|done]].
  - unfold action_get_chroot. by rewrite Hnone.
  - intros Hconf. unfold action_edit_chroot, requires_api_auth.
    by rewrite Hconf, Hnone.
Qed.

Lemma chroot_path_without_owner_and_project_witness :
  action_get_chroot (fun _ _ _ => "{}") "fedora-rawhide-x86_64" =
    ([], Some (Raise TypeError)).
Proof.
  assert (occurs "/" "fedora-rawhide-x86_64" = false \/
          exists r, "fedora-rawhide-x86_64" = String "/" r) as H
    by (left; reflexivity).
  exact (proj1 (chroot_path_without_owner_and_project
                  (fun _ _ _ => "{}") (fun _ _ _ => "ok") (Client false None)
                  flat_issubclass "fedora-rawhide-x86_64" H)).
Defined.

(** ** [action_mock_config] *)

Lemma split_cons sep s : exists x l, split sep s = x :: l.
Proof.
  destruct s as [|c s]; [by eexists _, _|]. cbn [split].
  destruct (Ascii.eqb c sep); [by eexists _, _|].
  destruct (split sep s); by eexists _, _.
Qed.

Lemma length_split sep s : length (split sep s) = S (count sep s).
Proof.
  induction s as [|c s IH]; [done|]. cbn [split count].
  destruct (Ascii.eqb c sep).
  - cbn [length]. by rewrite IH.
  - destruct (split_cons sep s) as (x & l & Hs). rewrite Hs in IH |- *.
    cbn [length] in *. by rewrite IH.
Qed.

(** X10.  [action_mock_config] asks for the project as given when it holds
    exactly one slash; otherwise for the user name of the configuration, a
    slash and the project as given, and when there is no such user name it
    raises [TypeError] and asks nothing. *)
Theorem action_mock_config_project get_build_config self args_project args_chroot :
  let sent (project : string) :=
    requests (fst (action_mock_config get_build_config self args_project args_chroot))
      = [Get_build_config project args_chroot] /\
    snd (action_mock_config get_build_config self args_project args_chroot)
      = Some Return in
  (count "/" args_project = 1%nat -> sent args_project) /\
  (count "/" args_project ≠ 1%nat ->
   match username self with
   | Some u => sent (u +:+ String "/" args_project)
   | None =>
       action_mock_config get_build_config self args_project args_chroot =
         ([], Some (Raise TypeError))
   end).
Proof.
  intros sent. subst sent. unfold action_mock_config.
  rewrite length_split. split.
  - intros ->. rewrite bool_decide_false by (intros H; by apply H).
    cbn [fst snd]. split; [|done].
    rewrite !requests_app. by case_bool_decide.
  - intros Hne. rewrite bool_decide_true by (intros [= ?]; done).
    destruct (username self) as [u|]; [|done].
    cbn [fst snd]. split; [|done].
    rewrite !requests_app. by case_bool_decide.
Qed.

Lemma action_mock_config_project_witness :
  requests (fst (action_mock_config one_config (Client false (Some "me"))
                   "owner/project" "fedora-rawhide-x86_64")) =
    [Get_build_config "owner/project" "fedora-rawhide-x86_64"] /\
  requests (fst (action_mock_config one_config (Client false (Some "me"))
                   "project" "fedora-rawhide-x86_64")) =
    [Get_build_config "me/project" "fedora-rawhide-x86_64"] /\
  action_mock_config one_config (Client true None) "project" "fedora-rawhide-x86_64" =
    ([], Some (Raise TypeError)).
Proof.
  split; [|split].
  - apply (proj1 (action_mock_config_project one_config (Client false (Some "me"))
                    "owner/project" "fedora-rawhide-x86_64")). reflexivity.
  - apply (proj2 (action_mock_config_project one_config (Client false (Some "me"))
                    "project" "fedora-rawhide-x86_64")). discriminate.
  - apply (proj2 (action_mock_config_project one_config (Client true None)
                    "project" "fedora-rawhide-x86_64")). discriminate.
Defined.

(** ** [process_build] *)

(** X11.  When the build function refuses the request, or with [--nowait],
    [process_build] returns normally after its one request, whatever the
    number of steps: the watcher does nothing. *)
Theorem process_build_without_watch E build_function args_copr args_nowait data bar n :
  br_output (build_function (fst (parse_name args_copr))
                            (snd (parse_name args_copr)) data) ≠ "ok" \/
  args_nowait = true ->
  snd (process_build E build_function args_copr args_nowait data bar n) = Some Return /\
  watched_events (fst (process_build E build_function args_copr args_nowait data bar n)) = [] /\
  requests (fst (process_build E build_function args_copr args_nowait data bar n)) =
    [Build (fst (parse_name args_copr)) (snd (parse_name args_copr)) data].
Proof.
  intros Hquiet. unfold process_build.
  destruct (parse_name args_copr) as [username copr]. cbn [fst snd] in *.
  case_bool_decide as Hok.
  - cbn [fst snd]. by destruct bar.
  - destruct Hquiet as [?| ->]; [done|]. cbn [negb fst snd]. by destruct bar.
Qed.

Lemma process_build_without_watch_witness :
  snd (process_build env_201_202 build_refused "owner/project" false [] false 0) =
    Some Return /\
  watched_events (fst (process_build env_201_202 build_accepted "owner/project"
                         true [] false 0)) = [].
Proof.
  split.
  - apply (process_build_without_watch env_201_202 build_refused "owner/project"
             false [] false 0). left. discriminate.
  - apply (process_build_without_watch env_201_202 build_accepted "owner/project"
             true [] false 0). right. reflexivity.
Defined.

Lemma process_build_requests E build_function args_copr args_nowait data bar n :
  requests (fst (process_build E build_function args_copr args_nowait data bar n)) =
    [Build (fst (parse_name args_copr)) (snd (parse_name args_copr)) data].
Proof.
  unfold process_build, watching.
  destruct (parse_name args_copr) as [username copr]. cbn [fst snd].
  case_bool_decide; [by destruct bar|].
  destruct args_nowait; cbn [negb fst].
  - by destruct bar.
  - rewrite !requests_app, requests_Watching. by destruct bar.
Qed.

Lemma process_build_bar E build_function args_copr args_nowait data bar n :
  snd (process_build E build_function args_copr args_nowait data bar n) =
  snd (process_build E build_function args_copr args_nowait data false n).
Proof.
  unfold process_build, watching.
  destruct (parse_name args_copr) as [username copr].
  case_bool_decide; [done|]. by destruct args_nowait.
Qed.

(** X12.  [process_build] followed by the handlers of [main]: when the request
    is accepted and the watch of the created builds is over with a clean
    trace, the command completes if no build was reported failed, and
    otherwise writes the build error that lists the failed builds and exits
    with status 4. *)
Theorem process_build_exit_status issubclass E build_function args_copr data bar n :
  (forall c, issubclass c c = true) ->
  issubclass CoprBuildException KeyboardInterrupt = false ->
  let res := build_function (fst (parse_name args_copr))
                            (snd (parse_name args_copr)) data in
  let c := _watch_builds E (builds_list res) n in
  br_output res = "ok" ->
  (exists o, fst c = PExit o) ->
  clean (out (snd c)) = true ->
  exists e,
    snd (process_build E build_function args_copr false data bar n) = Some e /\
    main_action issubclass e =
      match failed_of (out (snd c)) with
      | [] => Completed
      | _ :: _ =>
          Exited (nl +:+ "Build error: " +:+
                  failed_msg (failed_of (out (snd c))) +:+ nl) 4
      end.
Proof.
  intros Hrefl Hbuild res c Hok [o Ho] Hclean.
  pose proof (settling_run E (builds_list res) n) as (Hf & _ & _ & _ & Hpc).
  fold c in Hf, Hpc. rewrite Ho in Hpc.
  destruct (Hpc Hclean) as (_ & _ & ->).
  unfold process_build, watching.
  destruct (parse_name args_copr) as [username copr]. cbn [fst snd] in *.
  fold res. rewrite bool_decide_false by (intros H; by apply H).
  cbn [negb snd]. fold c. unfold result. rewrite Ho, <- Hf.
  destruct (failed_ids (snd c)) as [|x l] eqn:Hfailed; cbn [settle_outcome].
  - by exists Return.
  - eexists. split; [done|]. cbn [main_action].
    by rewrite main_except_build.
Qed.

Lemma process_build_exit_status_witness :
  exists e,
    snd (process_build env_201_202 build_accepted "owner/project" false [] false 17) =
      Some e /\
    main_action flat_issubclass e =
      Exited (nl +:+ "Build error: Build(s) 202 failed." +:+ nl) 4.
Proof.
  destruct (process_build_exit_status flat_issubclass env_201_202 build_accepted
              "owner/project" [] false 17) as (e & He & Hmain).
  - intros []; reflexivity.
  - reflexivity.
  - reflexivity.
  - eexists. vm_compute. reflexivity.
  - vm_compute. reflexivity.
  - exists e. split; [exact He|]. rewrite Hmain. vm_compute. reflexivity.
Defined.

(** ** [action_build] *)

(** X13.  The loop of [action_build] takes the packages one by one: if
    [process_build] returns for each of them, each is requested once, in
    order, and the loop returns; if it does not return for a package (its
    watch raises, or is still running), the loop ends as that call does and
    no later package is requested. *)
Theorem action_build_one_by_one E build_function exists_ args_copr args_nowait n
    pkgs1 : forall i bar,
  let ending_of j pkg :=
    snd (process_build (E (i + j)%nat) build_function args_copr args_nowait
                       [pkg] false n) in
  let sent := map (fun pkg => Build (fst (parse_name args_copr))
                                    (snd (parse_name args_copr)) [pkg]) in
  (forall j pkg, pkgs1 !! j = Some pkg -> ending_of j pkg = Some Return) ->
  (requests (fst (action_build_loop E build_function exists_ args_copr
                    args_nowait n i pkgs1 bar)) = sent pkgs1 /\
   snd (action_build_loop E build_function exists_ args_copr args_nowait n i
          pkgs1 bar) = Some Return) /\
  (forall pkg pkgs2,
     ending_of (length pkgs1) pkg ≠ Some Return ->
     requests (fst (action_build_loop E build_function exists_ args_copr
                      args_nowait n i (pkgs1 ++ pkg :: pkgs2) bar)) =
       sent (pkgs1 ++ [pkg]) /\
     snd (action_build_loop E build_function exists_ args_copr args_nowait n i
            (pkgs1 ++ pkg :: pkgs2) bar) = ending_of (length pkgs1) pkg).
Proof.
  induction pkgs1 as [|p pkgs1 IH]; intros i bar ending_of sent Hall.
  - split; [done|]. intros pkg pkgs2 Hfail. subst ending_of sent.
    cbn [app action_build_loop length map] in *. rewrite Nat.add_0_r in *.
    pose proof (process_build_requests (E i) build_function args_copr
                  args_nowait [pkg] (if exists_ pkg then true else bar) n) as Hreq.
    pose proof (process_build_bar (E i) build_function args_copr
                  args_nowait [pkg] (if exists_ pkg then true else bar) n) as Hbar.
    destruct (process_build (E i) build_function args_copr args_nowait [pkg]
                (if exists_ pkg then true else bar) n) as [effs e].
    cbn [fst snd] in *. rewrite <- Hbar in Hfail |- *.
    assert (requests (if exists_ pkg
                      then [Stdout ("Uploading package " +:+ pkg)] else []) = [])
      as Hup by (by destruct (exists_ pkg)).
    destruct e as [[|r]|]; [done| |]; cbn [fst snd];
      by rewrite requests_app, Hup, Hreq.
  - assert (ending_of 0%nat p = Some Return) as Hp by (by apply Hall).
    subst ending_of sent. cbn beta in *. rewrite Nat.add_0_r in Hp.
    specialize (IH (S i) (if exists_ p then true else bar)).
    cbn zeta in IH.
    destruct IH as [[IHreq IHend] IHfail].
    { intros j pkg Hj. replace (S i + j)%nat with (i + S j)%nat by lia.
      by apply (Hall (S j)). }
    pose proof (process_build_requests (E i) build_function args_copr
                  args_nowait [p] (if exists_ p then true else bar) n) as Hreq.
    pose proof (process_build_bar (E i) build_function args_copr
                  args_nowait [p] (if exists_ p then true else bar) n) as Hbar.
    assert (requests (if exists_ p
                      then [Stdout ("Uploading package " +:+ p)] else []) = [])
      as Hup by (by destruct (exists_ p)).
    split.
    + cbn [action_build_loop].
      destruct (process_build (E i) build_function args_copr args_nowait [p]
                  (if exists_ p then true else bar) n) as [effs e].
      cbn [fst snd] in *. rewrite Hp in Hbar. subst e.
      destruct (action_build_loop E build_function exists_ args_copr
                  args_nowait n (S i) pkgs1 _) as [effs' e'].
      cbn [fst snd] in *. split; [|done].
      by rewrite !requests_app, Hup, Hreq, IHreq.
    + intros pkg pkgs2 Hfail. cbn [app action_build_loop length] in *.
      replace (i + S (length pkgs1))%nat with (S i + length pkgs1)%nat in * by lia.
      destruct (IHfail pkg pkgs2 Hfail) as [IHreq' IHend'].
      destruct (process_build (E i) build_function args_copr args_nowait [p]
                  (if exists_ p then true else bar) n) as [effs e].
      cbn [fst snd] in *. rewrite Hp in Hbar. subst e.
      destruct (action_build_loop E build_function exists_ args_copr
                  args_nowait n (S i) (pkgs1 ++ pkg :: pkgs2) _) as [effs' e'].
      cbn [fst snd] in *. split; [|done].
      by rewrite !requests_app, Hup, Hreq, IHreq'.
Qed.

Lemma action_build_one_by_one_witness :
  requests (fst (action_build_loop env_by_package build_accepted (fun _ => false)
                   "owner/project" false 20 0
                   (["a.src.rpm"] ++ "b.src.rpm" :: ["c.src.rpm"]) false)) =
    [Build (Some "owner") "project" ["a.src.rpm"];
     Build (Some "owner") "project" ["b.src.rpm"]] /\
  snd (action_build_loop env_by_package build_accepted (fun _ => false)
         "owner/project" false 20 0
         (["a.src.rpm"] ++ "b.src.rpm" :: ["c.src.rpm"]) false) =
    Some (Raise (Exception (Exn CoprBuildException "Build(s) 201, 202 failed."))).
Proof.
  assert (forall j pkg, ["a.src.rpm"] !! j = Some pkg ->
            snd (process_build (env_by_package (0 + j)) build_accepted
                   "owner/project" false [pkg] false 20) = Some Return) as Hall.
  { intros [|[|j]] pkg Hj; [|done|done]. vm_compute. reflexivity. }
  destruct (proj2 (action_build_one_by_one env_by_package build_accepted
                     (fun _ => false) "owner/project" false 20 ["a.src.rpm"]
                     0%nat false Hall) "b.src.rpm" ["c.src.rpm"]) as [Hreq Hend].
  - vm_compute. discriminate.
  - split.
    + rewrite Hreq. reflexivity.
    + rewrite Hend. vm_compute. reflexivity.
Defined.

(** ** More on the watcher *)

Lemma sorted_iter_NoDup (X : gset Z) : NoDup (sorted_iter X).
Proof.
  unfold sorted_iter. rewrite merge_sort_Permutation. apply NoDup_elements.
Qed.

Lemma never_done_step E ids id0 c :
  (forall t, sigint E t = false) ->
  id0 ∈ ids ->
  (forall r, answers E r id0 (fun st => terminal st = false)) ->
  (forall r id, id ∈ ids -> answers E r id (fun st => st ≠ "unknown")) ->
  done_watched c -> never_done ids id0 c -> never_done ids id0 (step E c).
Proof.
  intros Hsig Hin Hpend Hok. unfold never_done, done_watched.
  assert (forall s, watched s = list_to_set ids -> id0 ∉ done s ->
                    watched s ≠ done s) as Hmore.
  { intros s Hw Hd Heq. apply Hd. rewrite <- Heq, Hw.
    by apply elem_of_list_to_set. }
  destruct (step_view_step E c) as
    [ |l s Hs|l s Hs|p s Hp Hs|s Hs Hne|s Hs Heq|s Hs|id rest s Hs Hd
     |id rest s Hs Hd|id rest s d Hs Hget Hnok|id rest s d Hs Hget Hok' Hun
     |id rest s d Hs Hget Hok' Hun|s Hs Heq|s Hs Hne|s Hs|s Hs Hnil|s Hs Hne
     |id rest s e Hs Hget];
    cbn [fst snd tick emit next_round watched done];
    intros [Hsub Hpc] Hinv; try done;
    try (rewrite Hsig in Hs; done).
  - subst l. split; [done|]. apply not_elem_of_empty.
  - destruct Hinv as [Hw Hd]. by destruct (Hmore s Hw Hd).
  - destruct Hinv as [Hw Hd]. destruct Hpc as [Hid _].
    rewrite Hw in Hid. apply elem_of_list_to_set in Hid.
    destruct (Hok (round s) id Hid) as (d' & Hget' & Hok'' & _). congruence.
  - destruct Hinv as [Hw Hd]. destruct Hpc as [Hid _].
    rewrite Hw in Hid. apply elem_of_list_to_set in Hid.
    destruct (Hok (round s) id Hid) as (d' & Hget' & _ & Hun'). congruence.
  - destruct Hinv as [Hw Hd]. rewrite handled_watched, handled_done.
    split; [done|]. destruct (terminal (status d)) eqn:Hterm; [|done].
    intros [->%elem_of_singleton|?]%elem_of_union; [|done].
    destruct (Hpend (round s)) as (d' & Hget' & _ & Hterm'). congruence.
  - destruct Hinv as [Hw Hd]. by destruct (Hmore s Hw Hd).
  - destruct Hinv as [Hw Hd]. destruct Hpc as [Hid _].
    rewrite Hw in Hid. apply elem_of_list_to_set in Hid.
    destruct (Hok (round s) id Hid) as (d' & Hget' & _). congruence.
Qed.

(** X14.  The watcher has no timeout: with no Ctrl-C, answers that are ok and
    never unknown, and one watched build that never reaches a terminal
    status, the call is not over after any number of steps. *)
Theorem watch_without_end E ids id0 :
  iter_ok E ->
  (forall t, sigint E t = false) ->
  id0 ∈ ids ->
  (forall r, answers E r id0 (fun st => terminal st = false)) ->
  (forall r id, id ∈ ids -> answers E r id (fun st => st ≠ "unknown")) ->
  forall n, result (_watch_builds E ids n) = None.
Proof.
  intros Hit Hsig Hin Hpend Hok n.
  enough (done_watched (_watch_builds E ids n) /\
          never_done ids id0 (_watch_builds E ids n)) as [_ Hinv].
  { unfold never_done, result in *.
    by destruct (fst (_watch_builds E ids n)). }
  unfold _watch_builds.
  apply (run_invariant (fun c => done_watched c /\ never_done ids id0 c)).
  - split; [|done]. split; done.
  - intros c [Hdw Hnd]. split; [by apply done_watched_step|].
    by apply never_done_step.
Qed.

Lemma watch_without_end_witness :
  result (_watch_builds (env_const (ok "pending")) [5] 1000) = None.
Proof.
  apply (watch_without_end (env_const (ok "pending")) [5] 5).
  - intros X x. apply sorted_iter_ok.
  - reflexivity.
  - apply list_elem_of_here.
  - intros r. by exists (ok "pending").
  - intros r id _. by exists (ok "pending").
Defined.

Lemma times_queried_app id tr tr' :
  times_queried id (tr ++ tr') = (times_queried id tr + times_queried id tr')%nat.
Proof.
  induction tr as [|[] tr IH]; simpl; rewrite ?IH; lia.
Qed.

Lemma sleeps_app tr tr' : sleeps (tr ++ tr') = (sleeps tr + sleeps tr')%nat.
Proof.
  induction tr as [|[] tr IH]; simpl; rewrite ?IH; lia.
Qed.

Lemma sleeps_30_app tr tr' : sleeps_30 tr -> sleeps_30 tr' -> sleeps_30 (tr ++ tr').
Proof. intros H H' secs [?|?]%elem_of_app; auto. Qed.

Lemma sleeps_30_other ev : (forall secs, ev ≠ Slept secs) -> sleeps_30 [ev].
Proof. intros Hev secs Hin%list_elem_of_singleton. by destruct (Hev secs). Qed.

Lemma handled_counts E id0 d s id :
  times_queried id (out (handled E id0 d s)) =
    ((if bool_decide (id0 = id) then 1 else 0) + times_queried id (out s))%nat /\
  sleeps (out (handled E id0 d s)) = sleeps (out s) /\
  (sleeps_30 (out s) -> sleeps_30 (out (handled E id0 d s))).
Proof.
  rewrite handled_out, times_queried_app, sleeps_app. cbn [times_queried sleeps].
  assert (forall b : bool,
            times_queried id
              (if b then [Notified (strftime E (ticks s)) (status d) id0] else []) = 0%nat
            /\ sleeps (if b then [Notified (strftime E (ticks s)) (status d) id0]
                       else []) = 0%nat) as Hb by (by intros []).
  destruct (Hb (bool_decide (ledger s id0 ≠ Some (status d)))) as [-> ->].
  split; [lia|]. split; [lia|]. intros H30. apply sleeps_30_app; [done|].
  intros secs [?|Hin]%elem_of_cons; [done|].
  case_bool_decide; [|by apply elem_of_nil in Hin].
  by apply list_elem_of_singleton in Hin.
Qed.

Lemma polled_once_step E c :
  (forall X, NoDup (set_iter E X)) ->
  started (fst c) -> polled_once c -> polled_once (step E c).
Proof.
  intros Hnd. unfold polled_once.
  destruct (step_view_step E c) as
    [ |l s Hs|l s Hs|p s Hp Hs|s Hs Hne|s Hs Heq|s Hs|id0 rest s Hs Hd
     |id0 rest s Hs Hd|id0 rest s d Hs Hget Hnok|id0 rest s d Hs Hget Hok' Hun
     |id0 rest s d Hs Hget Hok' Hun|s Hs Heq|s Hs Hne|s Hs|s Hs Hnil|s Hs Hne
     |id0 rest s e Hs Hget];
    cbn [fst snd tick emit next_round out];
    intros Hst (H30 & Hall & Hpc); try done.
  - split; [|split; [|done]].
    + apply sleeps_30_app; [done|]. by apply sleeps_30_other.
    + intros id. rewrite times_queried_app, sleeps_app. cbn.
      specialize (Hall id). lia.
  - destruct Hpc as [Hnd' Hpc]. apply NoDup_cons in Hnd' as [_ Hnd'].
    do 3 (split; [done|]). intros id Hid. apply Hpc. by right.
  - split; [|split; [|done]].
    + apply sleeps_30_app; [done|]. by apply sleeps_30_other.
    + destruct Hpc as [_ Hpc]. intros id.
      rewrite times_queried_app, sleeps_app. cbn [times_queried sleeps].
      case_bool_decide as Hid.
      * subst. specialize (Hpc id (list_elem_of_here _ _)). lia.
      * specialize (Hall id). lia.
  - destruct Hpc as [_ Hpc]. split; [by apply handled_counts|].
    split; [|done]. intros id.
    destruct (handled_counts E id0 d s id) as (-> & -> & _).
    case_bool_decide as Hid.
    + subst. specialize (Hpc id (list_elem_of_here _ _)). lia.
    + specialize (Hall id). lia.
  - destruct Hpc as [Hnd' Hpc]. apply NoDup_cons in Hnd' as [Hfresh Hnd'].
    split; [by apply handled_counts|]. split; [|split; [done|]].
    + intros id. destruct (handled_counts E id0 d s id) as (-> & -> & _).
      case_bool_decide as Hid.
      * subst. specialize (Hpc id (list_elem_of_here _ _)). lia.
      * specialize (Hall id). lia.
    + intros id Hid. destruct (handled_counts E id0 d s id) as (-> & -> & _).
      rewrite bool_decide_false by (intros ->; done).
      apply Hpc. by right.
  - split; [|split].
    + apply sleeps_30_app; [done|]. by intros secs [= ->]%list_elem_of_singleton.
    + intros id. rewrite times_queried_app, sleeps_app. cbn.
      specialize (Hall id). lia.
    + intros id. rewrite times_queried_app, sleeps_app. cbn.
      specialize (Hall id). lia.
  - split; [|split; [|done]].
    + apply sleeps_30_app; [done|]. by apply sleeps_30_other.
    + destruct Hpc as [_ Hpc]. intros id.
      rewrite times_queried_app, sleeps_app. cbn [times_queried sleeps].
      case_bool_decide as Hid.
      * subst. specialize (Hpc id (list_elem_of_here _ _)). lia.
      * specialize (Hall id). lia.
Qed.

(** X15.  If iterating over a set visits no member twice, a build is queried
    at most once more often than the watcher has slept, and every sleep is of
    30 seconds. *)
Theorem watch_polls_once_per_sleep E ids n id :
  (forall X, NoDup (set_iter E X)) ->
  (times_queried id (out (snd (_watch_builds E ids n)))
   <= S (sleeps (out (snd (_watch_builds E ids n)))))%nat /\
  forall secs, Slept secs ∈ out (snd (_watch_builds E ids n)) -> secs = 30.
Proof.
  intros Hnd.
  enough (polled_once (_watch_builds E ids n)) as (H30 & Hall & _) by done.
  unfold _watch_builds. apply (run_invariant_started polled_once).
  - split; [by intros secs ?%elem_of_nil|]. split; [|done]. intros id'. cbn. lia.
  - unfold start, step. cbn [ticks]. destruct (sigint E 0);
      cbn [fst snd tick emit out app].
    + split; [by apply sleeps_30_other|]. split; [|done]. intros id'. cbn. lia.
    + split; [by apply sleeps_30_other|]. split; intros id'; cbn; lia.
  - intros c. by apply polled_once_step.
Qed.

Lemma watch_polls_once_per_sleep_witness :
  Nat.le (times_queried 101 (out (snd (_watch_builds env_101 [101] 20))))
         (S (sleeps (out (snd (_watch_builds env_101 [101] 20))))) /\
  times_queried 101 (out (snd (_watch_builds env_101 [101] 20))) = 3%nat /\
  sleeps (out (snd (_watch_builds env_101 [101] 20))) = 2%nat.
Proof.
  split; [|split; vm_compute; reflexivity].
  apply (watch_polls_once_per_sleep env_101 [101] 20 101).
  intros X. apply sorted_iter_NoDup.
Defined.

Lemma not_just_slept_snoc tr ev :
  (forall secs, ev ≠ Slept secs) -> ~ just_slept (tr ++ [ev]).
Proof.
  intros Hev [secs Hl]. rewrite last_snoc in Hl. injection Hl as Hl.
  by destruct (Hev secs).
Qed.

Lemma not_just_slept_handled E id d s : ~ just_slept (out (handled E id d s)).
Proof.
  rewrite handled_out. case_bool_decide.
  - change (out s ++ [Queried id d; ?ev]) with (out s ++ [Queried id d] ++ [ev]).
    rewrite app_assoc. by apply not_just_slept_snoc.
  - by apply not_just_slept_snoc.
Qed.

Lemma awake_at_end_step E c :
  started (fst c) -> awake_at_end c -> awake_at_end (step E c).
Proof.
  unfold awake_at_end.
  destruct (step_view_step E c) as
    [ |l s Hs|l s Hs|p s Hp Hs|s Hs Hne|s Hs Heq|s Hs|id0 rest s Hs Hd
     |id0 rest s Hs Hd|id0 rest s d Hs Hget Hnok|id0 rest s d Hs Hget Hok' Hun
     |id0 rest s d Hs Hget Hok' Hun|s Hs Heq|s Hs Hne|s Hs|s Hs Hnil|s Hs Hne
     |id0 rest s e Hs Hget];
    cbn [fst snd tick emit next_round out watched done];
    intros Hst Hinv; try done;
    try (by apply not_just_slept_snoc);
    try (by apply not_just_slept_handled).
  - intros Hslept. by apply Hinv.
  - intros Hslept. by destruct (not_just_slept_handled E id0 d s).
  - intros Hslept. by apply Hinv.
Qed.

(** X16.  A completed sleep is never the last thing the watcher did when the
    call is over, however it ended.  The call can end during the sleep of
    line 150 only by a Ctrl-C that arrives then: it returns normally, and the
    trace ends with the interruption, not with a sleep.  Without a Ctrl-C the
    sleep runs to its end and the loop goes on, the watch set not being done
    yet. *)
Theorem watch_never_ends_on_a_sleep E ids n p s :
  _watch_builds E ids n = (p, s) ->
  (forall o, p = PExit o -> forall secs, last (out s) ≠ Some (Slept secs)) /\
  (p = PSleep ->
   watched s ≠ done s /\
   _watch_builds E ids (S n) =
     if sigint E (ticks s)
     then (PExit Returned, tick (emit [Interrupted] s))
     else (PWhile, tick (next_round (emit [Slept 30] s)))).
Proof.
  intros Hrun.
  assert (awake_at_end (_watch_builds E ids n)) as Hinv.
  { unfold _watch_builds. apply (run_invariant_started awake_at_end).
    - done.
    - unfold start, step. cbn [ticks]. destruct (sigint E 0).
      + by apply (not_just_slept_snoc []).
      + cbn. by intros [secs' [=]].
    - intros c. apply awake_at_end_step. }
  rewrite Hrun in Hinv. split.
  - intros o -> secs Hlast. apply Hinv. by exists secs.
  - intros ->. split; [exact Hinv|].
    unfold _watch_builds in *. rewrite run_S, Hrun.
    rewrite step_in_try by done. by destruct (sigint E (ticks s)).
Qed.

Lemma watch_never_ends_on_a_sleep_witness :
  (_watch_builds env_101 [101] 20 =
     (PExit Returned, snd (_watch_builds env_101 [101] 20)) /\
   forall secs,
     last (out (snd (_watch_builds env_101 [101] 20))) ≠ Some (Slept secs)) /\
  (_watch_builds (env_ctrl_c 8) [1; 2] 8 =
     (PSleep, snd (_watch_builds (env_ctrl_c 8) [1; 2] 8)) /\
   result (_watch_builds (env_ctrl_c 8) [1; 2] 9) = Some Returned /\
   last (out (snd (_watch_builds (env_ctrl_c 8) [1; 2] 9))) = Some Interrupted).
Proof.
  assert (_watch_builds env_101 [101] 20 =
            (PExit Returned, snd (_watch_builds env_101 [101] 20))) as H1
    by (vm_compute; reflexivity).
  assert (_watch_builds (env_ctrl_c 8) [1; 2] 8 =
            (PSleep, snd (_watch_builds (env_ctrl_c 8) [1; 2] 8))) as H2
    by (vm_compute; reflexivity).
  split.
  - split; [exact H1|].
    exact (proj1 (watch_never_ends_on_a_sleep env_101 [101] 20 _ _ H1)
             Returned eq_refl).
  - split; [exact H2|].
    destruct (proj2 (watch_never_ends_on_a_sleep (env_ctrl_c 8) [1; 2] 8 _ _ H2)
                eq_refl) as [_ Hnext].
    rewrite Hnext. split; vm_compute; reflexivity.
Defined.

Lemma compress_nil l : compress l = [] -> l = [].
Proof.
  induction l as [|x l IH]; [done|]. destruct l as [|y l]; [done|].
  change (compress (x :: y :: l)) with
    (if bool_decide (x = y) then compress (y :: l) else x :: compress (y :: l)).
  case_bool_decide; [|done]. intros Hc. by specialize (IH Hc).
Qed.

Lemma last_compress l : last (compress l) = last l.
Proof.
  induction l as [|x l IH]; [done|]. destruct l as [|y l]; [done|].
  change (compress (x :: y :: l)) with
    (if bool_decide (x = y) then compress (y :: l) else x :: compress (y :: l)).
  change (last (x :: y :: l)) with (last (y :: l)).
  case_bool_decide; [done|]. rewrite <- IH.
  destruct (compress (y :: l)) eqn:Hc; [|done].
  by apply compress_nil in Hc.
Qed.

Lemma done_reported_step E c :
  started (fst c) -> query_fresh c -> done_reported c -> done_reported (step E c).
Proof.
  unfold done_reported, query_fresh.
  destruct (step_view_step E c) as
    [ |l s Hs|l s Hs|p s Hp Hs|s Hs Hne|s Hs Heq|s Hs|id0 rest s Hs Hd
     |id0 rest s Hs Hd|id0 rest s d Hs Hget Hnok|id0 rest s d Hs Hget Hok' Hun
     |id0 rest s d Hs Hget Hok' Hun|s Hs Heq|s Hs Hne|s Hs|s Hs Hnil|s Hs Hne
     |id0 rest s e Hs Hget];
    cbn [fst snd tick emit next_round out done];
    intros Hst Hq Hinv; try done;
    intros id Hid; rewrite ?observed_app; cbn [observed];
    rewrite ?app_nil_r; try (by apply Hinv).
  - rewrite bool_decide_false by (by intros [_ ?]). rewrite app_nil_r.
    by apply Hinv.
  - rewrite handled_done in Hid. rewrite handled_out, observed_app.
    cbn [observed].
    assert (forall b : bool, observed id
              (if b then [Notified (strftime E (ticks s)) (status d) id0] else [])
            = []) as -> by (by intros []).
    destruct (decide (id0 = id)) as [->|Hne'].
    + rewrite bool_decide_true by done. rewrite last_snoc.
      exists (status d). split; [done|].
      destruct (terminal (status d)); [done|]. by destruct Hq.
    + rewrite bool_decide_false by (by intros [? _]). rewrite app_nil_r.
      apply Hinv. destruct (terminal (status d)); [|done].
      apply elem_of_union in Hid as [Hid%elem_of_singleton|]; [|done].
      by destruct Hne'.
  - rewrite handled_done in Hid. rewrite handled_out, observed_app.
    cbn [observed].
    assert (forall b : bool, observed id
              (if b then [Notified (strftime E (ticks s)) (status d) id0] else [])
            = []) as -> by (by intros []).
    destruct (decide (id0 = id)) as [->|Hne'].
    + rewrite bool_decide_true by done. rewrite last_snoc.
      exists (status d). split; [done|].
      destruct (terminal (status d)); [done|]. by destruct Hq.
    + rewrite bool_decide_false by (by intros [? _]). rewrite app_nil_r.
      apply Hinv. destruct (terminal (status d)); [|done].
      apply elem_of_union in Hid as [Hid%elem_of_singleton|]; [|done].
      by destruct Hne'.
Qed.

(** X17.  For every build in the done set, the last status notified and the
    status in the ledger are the same terminal status. *)
Theorem watch_last_status_line E ids n id :
  id ∈ done (snd (_watch_builds E ids n)) ->
  exists st,
    terminal st = true /\
    last (notified id (out (snd (_watch_builds E ids n)))) = Some st /\
    ledger (snd (_watch_builds E ids n)) id = Some st.
Proof.
  intros Hid.
  assert (query_fresh (_watch_builds E ids n) /\
          done_reported (_watch_builds E ids n)) as [_ Hinv].
  { unfold _watch_builds.
    apply (run_invariant_started (fun c => query_fresh c /\ done_reported c)).
    - split; [done|]. by intros id' ?%elem_of_empty.
    - split; [by apply query_fresh_step|].
      unfold start, step. cbn [ticks]. destruct (sigint E 0);
        by intros id' ?%elem_of_empty.
    - intros c Hst [Hq Hd]. split; [by apply query_fresh_step|].
      by apply done_reported_step. }
  destruct (Hinv id Hid) as (st & Hlast & Hterm).
  destruct (ledger_follows_run E ids n id) as [Hn Hl].
  exists st. split; [done|]. by rewrite Hn, last_compress, Hl.
Qed.

Lemma watch_last_status_line_witness :
  202 ∈ done (snd (_watch_builds env_201_202 [201; 202] 17)) /\
  exists st,
    terminal st = true /\
    last (notified 202 (out (snd (_watch_builds env_201_202 [201; 202] 17)))) = Some st /\
    ledger (snd (_watch_builds env_201_202 [201; 202] 17)) 202 = Some st.
Proof.
  assert (202 ∈ done (snd (_watch_builds env_201_202 [201; 202] 17))) as H.
  { assert (bool_decide (202 ∈ done (snd (_watch_builds env_201_202 [201; 202] 17)))
            = true) as Hb by (vm_compute; reflexivity).
    by apply bool_decide_eq_true in Hb. }
  split; [exact H|].
  exact (watch_last_status_line env_201_202 [201; 202] 17 202 H).
Defined.

(** ** [action_watch_build] and Ctrl-C *)

(** X18.  Ctrl-C and [action_watch_build]: before the watcher enters its try
    block the interrupt reaches [main], which writes "Interrupted by user."
    and exits with status 1; inside the try block the action returns and
    [main] completes. *)
Theorem watch_build_interrupted issubclass E ids :
  issubclass KeyboardInterrupt KeyboardInterrupt = true ->
  (sigint E 0 = true ->
   forall k,
     snd (action_watch_build E ids (S k)) =
       Some (Raise (Exception (Exn KeyboardInterrupt EmptyString))) /\
     main_action issubclass (Raise (Exception (Exn KeyboardInterrupt EmptyString))) =
       Exited (nl +:+ "Interrupted by user.") 1) /\
  (forall n p s,
     _watch_builds E ids n = (p, s) -> in_try p = true ->
     sigint E (ticks s) = true ->
     forall k,
       snd (action_watch_build E ids (n + S k)) = Some Return /\
       main_action issubclass Return = Completed).
Proof.
  intros Hrefl. split.
  - intros Hs k. split.
    + unfold action_watch_build, watching, _watch_builds.
      change (S k) with (1 + k)%nat. rewrite run_add.
      change (run E 1 (start ids)) with (step E (start ids)).
      unfold start, step. cbn [ticks]. rewrite Hs. by rewrite run_exit.
    + unfold main_action, main_except, handlers. cbn [dispatch exn_cls exn_msg].
      by rewrite Hrefl.
  - intros n p s Hrun Hp Hs k. split; [|done].
    unfold action_watch_build, watching, _watch_builds in *.
    rewrite run_add, Hrun. change (S k) with (1 + k)%nat. rewrite run_add.
    change (run E 1 ?c) with (step E c).
    rewrite step_sigint by done. by rewrite run_exit.
Qed.

Lemma watch_build_interrupted_witness :
  snd (action_watch_build (env_ctrl_c 0) [1; 2] 1) =
    Some (Raise (Exception (Exn KeyboardInterrupt EmptyString))) /\
  main_action flat_issubclass (Raise (Exception (Exn KeyboardInterrupt EmptyString))) =
    Exited (nl +:+ "Interrupted by user.") 1 /\
  snd (action_watch_build (env_ctrl_c 8) [1; 2] (8 + 1)) = Some Return.
Proof.
  destruct (watch_build_interrupted flat_issubclass (env_ctrl_c 0) [1; 2] eq_refl)
    as [Hbefore _].
  destruct (watch_build_interrupted flat_issubclass (env_ctrl_c 8) [1; 2] eq_refl)
    as [_ Hinside].
  destruct (Hbefore eq_refl 0%nat) as [H1 H2].
  split; [exact H1|]. split; [exact H2|].
  refine (proj1 (Hinside 8%nat PSleep (snd (_watch_builds (env_ctrl_c 8) [1; 2] 8))
                   _ eq_refl _ 0%nat)).
  - vm_compute. reflexivity.
  - vm_compute. reflexivity.
Defined.

